(** * Task API (Backend/main.py): a shallow embedding and its properties

    The service keeps one table, [tasks], and exposes five handlers over it:
    [create_task], [list_tasks], [get_task], [update_task], [delete_task].

    Modelling choices, all visible in the definitions below:
    - the committed table is a list of rows in insertion order; the session
      calls ([db.get], [db.add], the UPDATE and DELETE issued at commit, the
      SELECT built by [list_tasks]) are functions on that list;
    - a [datetime] has its date and time fields, read as one integer count,
      and the UTC offset when it carries one; a [DateTime] column keeps the
      fields only, and the ordering of its stored text coincides with the
      ordering of the integers;
    - [datetime.utcnow()] is an input of the handlers that read it;
    - a [str] is a [string]; its characters are 8-bit code points;
    - a handler returns the new table together with an HTTP outcome;
    - a parameter outside the signed 64-bit range makes the statement that
      carries it raise; the keys SQLite assigns are taken as unbounded;
    - a body member that is not of its field's type is [Invalid];
    - the limit of SQLite on the length of a [LIKE] pattern is not
      modelled. *)

From Stdlib Require Import ZArith String Ascii List Bool Lia.
From Stdlib Require Import Sorting.Sorted Sorting.Permutation.
Import ListNotations.

Local Open Scope Z_scope.

(** ** Models *)

(** The date and time fields of a datetime, read as one count of
    microseconds: what [datetime.utcnow()] returns and what a [DateTime]
    column gives back carry nothing else. *)
Definition naive_datetime := Z.

(** A [datetime]: its date and time fields, and its UTC offset when it is
    aware. *)
Record datetime := mk_datetime {
  fields : naive_datetime;
  utcoffset : option Z
}.

(** The datetime without offset that has the given fields. *)
Definition naive (t : naive_datetime) : datetime := mk_datetime t None.

(** What a [DateTime] column keeps of a datetime bound to it: SQLite has no
    datetime type, the column writes the date and time fields as text and
    the offset is not written. *)
Definition DateTime_bind (d : datetime) : naive_datetime := fields d.

Inductive TaskStatus := pending | in_progress | completed.

(** [TaskStatus.value]: the string stored in the [status] column. *)
Definition TaskStatus_value (s : TaskStatus) : string :=
  match s with
  | pending => "pending"
  | in_progress => "in_progress"
  | completed => "completed"
  end%string.

(** [TaskStatus(s)]: the enum member with that value, if there is one. *)
Definition TaskStatus_of_value (s : string) : option TaskStatus :=
  if String.eqb s "pending" then Some pending
  else if String.eqb s "in_progress" then Some in_progress
  else if String.eqb s "completed" then Some completed
  else None.

Definition TaskStatus_eqb (a b : TaskStatus) : bool :=
  match a, b with
  | pending, pending | in_progress, in_progress | completed, completed => true
  | _, _ => false
  end.

(** A row of the [tasks] table. *)
Module TaskDB.
Record t := mk {
  id : Z;
  title : string;
  description : option string;
  status : string;
  due_date : naive_datetime;
  created_at : naive_datetime;
  updated_at : naive_datetime
}.
End TaskDB.

(** ** Pydantic schemas *)

Module TaskCreate.
Record t := mk {
  title : string;
  description : option string;
  due_date : datetime;
  status : TaskStatus
}.
End TaskCreate.

Module TaskUpdate.
Record t := mk {
  title : option string;
  description : option string;
  status : option TaskStatus;
  due_date : option datetime
}.
End TaskUpdate.

Module TaskOut.
Record t := mk {
  id : Z;
  title : string;
  description : option string;
  status : TaskStatus;
  due_date : datetime;
  created_at : datetime;
  updated_at : datetime
}.
End TaskOut.

Module TaskListOut.
Record t := mk {
  total : Z;
  items : list TaskOut.t
}.
End TaskListOut.

(** A member of a JSON request body: left out, [null], a value of the
    field's type, or something that is not one (a number for a [str], a
    text that does not parse for a [datetime]). *)
Inductive field (A : Type) : Type :=
| Missing
| Null
| Value (a : A)
| Invalid.
Arguments Missing {A}.
Arguments Null {A}.
Arguments Value {A} a.
Arguments Invalid {A}.

(** The body of [POST /tasks] before validation. *)
Module CreateBody.
Record t := mk {
  title : field string;
  description : field string;
  due_date : field datetime;
  status : field string
}.
End CreateBody.

(** The body of [PATCH /tasks/{id}] before validation. *)
Module UpdateBody.
Record t := mk {
  title : field string;
  description : field string;
  status : field string;
  due_date : field datetime
}.
End UpdateBody.

(** Field names that a validation error is reported on. *)
Inductive loc := loc_title | loc_description | loc_due_date | loc_status
               | loc_id | loc_limit | loc_offset | loc_sort | loc_order.

Definition loc_eqb (a b : loc) : bool :=
  match a, b with
  | loc_title, loc_title | loc_description, loc_description
  | loc_due_date, loc_due_date | loc_status, loc_status
  | loc_id, loc_id | loc_limit, loc_limit | loc_offset, loc_offset
  | loc_sort, loc_sort | loc_order, loc_order => true
  | _, _ => false
  end.

Definition str_len (s : string) : Z := Z.of_nat (String.length s).

(** [Field(min_length=lo, max_length=hi)] on a [str]. *)
Definition check_length (l : loc) (lo hi : Z) (s : string) : list loc :=
  if (str_len s <? lo) || (hi <? str_len s) then [l] else [].

(** A required [str] field with length bounds. *)
Definition required_str (l : loc) (lo hi : Z) (f : field string)
  : list loc * string :=
  match f with
  | Value s => (check_length l lo hi s, s)
  | _ => ([l], EmptyString)
  end.

(** An [Optional[str]] field with default [None] and length bounds. *)
Definition optional_str (l : loc) (lo hi : Z) (f : field string)
  : list loc * option string :=
  match f with
  | Value s => (check_length l lo hi s, Some s)
  | Invalid => ([l], None)
  | _ => ([], None)
  end.

(** A required field with no further constraint. *)
Definition required {A} (l : loc) (dflt : A) (f : field A) : list loc * A :=
  match f with
  | Value a => ([], a)
  | _ => ([l], dflt)
  end.

(** The value an [Optional] field with default [None] takes. *)
Definition optional {A} (f : field A) : option A :=
  match f with
  | Value a => Some a
  | _ => None
  end.

(** An [Optional] field with default [None] and no further constraint. *)
Definition optional_field {A} (l : loc) (f : field A) : list loc * option A :=
  match f with
  | Invalid => ([l], None)
  | _ => ([], optional f)
  end.

(** [status: TaskStatus = TaskStatus.pending]. *)
Definition status_with_default (f : field string) : list loc * TaskStatus :=
  match f with
  | Missing => ([], pending)
  | Null | Invalid => ([loc_status], pending)
  | Value s =>
      match TaskStatus_of_value s with
      | Some st => ([], st)
      | None => ([loc_status], pending)
      end
  end.

(** [status: Optional[TaskStatus] = None]. *)
Definition status_optional (f : field string) : list loc * option TaskStatus :=
  match f with
  | Value s =>
      match TaskStatus_of_value s with
      | Some st => ([], Some st)
      | None => ([loc_status], None)
      end
  | Invalid => ([loc_status], None)
  | _ => ([], None)
  end.

(** Validation of a body against [TaskCreate] ([TaskBase] plus [status]):
    the list of fields in error, or the validated payload. *)
Definition TaskCreate_validate (b : CreateBody.t) : list loc + TaskCreate.t :=
  let '(e1, ti) := required_str loc_title 1 200 (CreateBody.title b) in
  let '(e2, de) := optional_str loc_description 0 10000 (CreateBody.description b) in
  let '(e3, du) := required loc_due_date (naive 0) (CreateBody.due_date b) in
  let '(e4, st) := status_with_default (CreateBody.status b) in
  match e1 ++ e2 ++ e3 ++ e4 with
  | [] => inr (TaskCreate.mk ti de du st)
  | errs => inl errs
  end.

(** Validation of a body against [TaskUpdate]. *)
Definition TaskUpdate_validate (b : UpdateBody.t) : list loc + TaskUpdate.t :=
  let '(e1, ti) := optional_str loc_title 1 200 (UpdateBody.title b) in
  let '(e2, de) := optional_str loc_description 0 10000 (UpdateBody.description b) in
  let '(e3, st) := status_optional (UpdateBody.status b) in
  let '(e4, du) := optional_field loc_due_date (UpdateBody.due_date b) in
  match e1 ++ e2 ++ e3 ++ e4 with
  | [] => inr (TaskUpdate.mk ti de st du)
  | errs => inl errs
  end.

(** [TaskOut.model_validate(task)]: reading a row into the response schema
    fails when the stored status is not a member of the enum. The row has
    been refreshed from the table, so its datetimes have no offset. *)
Definition TaskOut_model_validate (task : TaskDB.t) : option TaskOut.t :=
  match TaskStatus_of_value (TaskDB.status task) with
  | Some st =>
      Some (TaskOut.mk (TaskDB.id task) (TaskDB.title task)
              (TaskDB.description task) st (naive (TaskDB.due_date task))
              (naive (TaskDB.created_at task))
              (naive (TaskDB.updated_at task)))
  | None => None
  end.

(** ** The table and the session *)

Definition Db := list TaskDB.t.

Definition has_id (k : Z) (task : TaskDB.t) : bool := TaskDB.id task =? k.

(** The row of the table under a key, if there is one. *)
Definition db_get (k : Z) (db : Db) : option TaskDB.t := find (has_id k) db.

(** The integers SQLite takes as a parameter: the signed 64-bit range. *)
Definition int64 (k : Z) : bool := (- 2 ^ 63 <=? k) && (k <? 2 ^ 63).

(** An integer a statement on this table can carry. The keys of a table are
    64-bit integers, so a key that occurs in the table is taken as one. *)
Definition binds (db : Db) (k : Z) : bool :=
  int64 k || existsb (has_id k) db.

(** What a call of the session gives: it raises, or it returns. *)
Inductive session_result (A : Type) : Type :=
| Raises
| Returns (a : A).
Arguments Raises {A}.
Arguments Returns {A} a.

(** [db.get(TaskDB, task_id)]: the row under the key, [None] when there is
    none; the call raises [OverflowError] for a key that cannot be bound. *)
Definition Session_get (k : Z) (db : Db) : session_result (option TaskDB.t) :=
  if binds db k then Returns (db_get k db) else Raises.

(** The key SQLite gives a row inserted without one: one more than the
    largest key in use, 1 in an empty table. *)
Definition next_rowid (db : Db) : Z :=
  1 + fold_right Z.max 0 (map TaskDB.id db).

(** [db.add(task); db.commit(); db.refresh(task)] for an object whose primary
    key is not set: [task] is the object awaiting its key. *)
Definition db_add (task : Z -> TaskDB.t) (db : Db) : Db * TaskDB.t :=
  let row := task (next_rowid db) in
  (db ++ [row], row).

(** The UPDATE of a modified object at commit: the row with its key is
    replaced. *)
Definition db_update (task : TaskDB.t) (db : Db) : Db :=
  map (fun r => if has_id (TaskDB.id task) r then task else r) db.

(** [db.delete(task); db.commit()]. *)
Definition db_delete (task : TaskDB.t) (db : Db) : Db :=
  filter (fun r => negb (has_id (TaskDB.id task) r)) db.

(** ** HTTP outcomes *)

Definition HTTP_200_OK : Z := 200.
Definition HTTP_201_CREATED : Z := 201.
Definition HTTP_204_NO_CONTENT : Z := 204.
Definition HTTP_404_NOT_FOUND : Z := 404.
Definition HTTP_422_UNPROCESSABLE : Z := 422.
Definition HTTP_500_INTERNAL : Z := 500.

Inductive outcome (A : Type) : Type :=
| Reply (status_code : Z) (body : A)
| HTTPException (status_code : Z) (detail : string)
| ValidationError (errors : list loc)
| Unhandled.
Arguments Reply {A} status_code body.
Arguments HTTPException {A} status_code detail.
Arguments ValidationError {A} errors.
Arguments Unhandled {A}.

(** The exception every handler raises for an id it does not find. *)
Definition not_found {A} : outcome A :=
  HTTPException HTTP_404_NOT_FOUND "Task not found".

(** The status code the client sees. *)
Definition status_code_of {A} (o : outcome A) : Z :=
  match o with
  | Reply c _ => c
  | HTTPException c _ => c
  | ValidationError _ => HTTP_422_UNPROCESSABLE
  | Unhandled => HTTP_500_INTERNAL
  end.

(** Returning [TaskOut.model_validate(task)] from a handler. *)
Definition reply_task (code : Z) (task : TaskDB.t) : outcome TaskOut.t :=
  match TaskOut_model_validate task with
  | Some out => Reply code out
  | None => Unhandled
  end.

(** ** CRUD endpoints *)

Definition create_task (now : naive_datetime) (payload : TaskCreate.t) (db : Db)
  : Db * outcome TaskOut.t :=
  let task := fun pk =>
    TaskDB.mk pk
      (TaskCreate.title payload)
      (TaskCreate.description payload)
      (TaskStatus_value (TaskCreate.status payload))
      (DateTime_bind (TaskCreate.due_date payload))
      now
      now in
  let '(db', task) := db_add task db in
  (db', reply_task HTTP_201_CREATED task).

(** [POST /tasks]: the body is validated against [TaskCreate] before the
    handler runs. *)
Definition POST_tasks (now : naive_datetime) (body : CreateBody.t) (db : Db)
  : Db * outcome TaskOut.t :=
  match TaskCreate_validate body with
  | inl errs => (db, ValidationError errs)
  | inr payload => create_task now payload db
  end.

Definition get_task (task_id : Z) (db : Db) : Db * outcome TaskOut.t :=
  match Session_get task_id db with
  | Raises => (db, Unhandled)
  | Returns None => (db, HTTPException HTTP_404_NOT_FOUND "Task not found")
  | Returns (Some task) => (db, reply_task HTTP_200_OK task)
  end.

Definition set_opt {A} (new : option A) (old : A) : A :=
  match new with
  | Some v => v
  | None => old
  end.

Definition update_task (now : naive_datetime) (task_id : Z) (payload : TaskUpdate.t)
  (db : Db) : Db * outcome TaskOut.t :=
  match Session_get task_id db with
  | Raises => (db, Unhandled)
  | Returns None => (db, HTTPException HTTP_404_NOT_FOUND "Task not found")
  | Returns (Some task) =>
      let title := set_opt (TaskUpdate.title payload) (TaskDB.title task) in
      let description :=
        match TaskUpdate.description payload with
        | Some d => Some d
        | None => TaskDB.description task
        end in
      let status :=
        match TaskUpdate.status payload with
        | Some s => TaskStatus_value s
        | None => TaskDB.status task
        end in
      let due_date :=
        set_opt (option_map DateTime_bind (TaskUpdate.due_date payload))
          (TaskDB.due_date task) in
      let task :=
        TaskDB.mk (TaskDB.id task) title description status due_date
          (TaskDB.created_at task) now in
      let db' := db_update task db in
      (db', reply_task HTTP_200_OK task)
  end.

(** [PATCH /tasks/{task_id}]: the body is validated against [TaskUpdate]
    before the handler runs. *)
Definition PATCH_task (now : naive_datetime) (task_id : Z) (body : UpdateBody.t)
  (db : Db) : Db * outcome TaskOut.t :=
  match TaskUpdate_validate body with
  | inl errs => (db, ValidationError errs)
  | inr payload => update_task now task_id payload db
  end.

Definition delete_task (task_id : Z) (db : Db) : Db * outcome unit :=
  match Session_get task_id db with
  | Raises => (db, Unhandled)
  | Returns None => (db, HTTPException HTTP_404_NOT_FOUND "Task not found")
  | Returns (Some task) => (db_delete task db, Reply HTTP_204_NO_CONTENT tt)
  end.

(** ** Strings as the query sees them *)

Definition chars (s : string) : list ascii := list_ascii_of_string s.

(** [str.isspace] on a single character. *)
Definition isspace (c : ascii) : bool :=
  let n := N_of_ascii c in
  (((9 <=? n) && (n <=? 13)) || ((28 <=? n) && (n <=? 32))
   || (n =? 133) || (n =? 160))%N.

Fixpoint lstrip (s : list ascii) : list ascii :=
  match s with
  | c :: s' => if isspace c then lstrip s' else s
  | [] => []
  end.

Definition rstrip (s : list ascii) : list ascii := rev (lstrip (rev s)).

(** [str.strip()]. *)
Definition strip (s : string) : string :=
  string_of_list_ascii (rstrip (lstrip (chars s))).

(** SQLite's [lower()] on one character: only A-Z are folded. *)
Definition ascii_lower (c : ascii) : ascii :=
  let n := N_of_ascii c in
  if ((65 <=? n) && (n <=? 90))%N then ascii_of_N (n + 32) else c.

Definition lower (s : list ascii) : list ascii := map ascii_lower s.

Definition is_percent (c : ascii) : bool := Ascii.eqb c "%".
Definition is_underscore (c : ascii) : bool := Ascii.eqb c "_".

(** [f] holds of the string or of one of its suffixes. *)
Fixpoint any_suffix (f : list ascii -> bool) (str : list ascii) : bool :=
  f str
  || match str with
     | [] => false
     | _ :: str' => any_suffix f str'
     end.

(** SQLite's [LIKE] with no escape character: [%] stands for any run of
    characters, [_] for any one character, and letters A-Z match without
    regard to case. *)
Fixpoint LIKE (pat str : list ascii) : bool :=
  match pat with
  | [] =>
      match str with
      | [] => true
      | _ :: _ => false
      end
  | p :: pat' =>
      if is_percent p then any_suffix (LIKE pat') str
      else
        match str with
        | [] => false
        | c :: str' =>
            (is_underscore p || Ascii.eqb (ascii_lower p) (ascii_lower c))
            && LIKE pat' str'
        end
  end.

Definition is_nul (c : ascii) : bool := Ascii.eqb c zero.

(** A text as [LIKE] reads it: up to its first NUL character. *)
Fixpoint until_nul (s : list ascii) : list ascii :=
  match s with
  | [] => []
  | c :: s' => if is_nul c then [] else c :: until_nul s'
  end.

(** [column.ilike(pattern)], which SQLite receives as
    [lower(column) LIKE lower(pattern)]; [LIKE] reads both texts up to
    their first NUL. *)
Definition ilike (column pattern : string) : bool :=
  LIKE (until_nul (lower (chars pattern))) (until_nul (lower (chars column))).

(** ** SELECT statements over the table *)

Section Sort.
Context {A : Type} (leb : A -> A -> bool).

Fixpoint insert_sorted (x : A) (l : list A) : list A :=
  match l with
  | [] => [x]
  | y :: l' => if leb x y then x :: l else y :: insert_sorted x l'
  end.

Definition sort_by (l : list A) : list A := fold_right insert_sorted [] l.
End Sort.

(** An integer-valued column with a direction, as given to [order_by]. *)
Record ordering := mk_ordering {
  ordering_col : TaskDB.t -> Z;
  ordering_asc : bool
}.

Definition asc (col : TaskDB.t -> Z) : ordering := mk_ordering col true.
Definition desc (col : TaskDB.t -> Z) : ordering := mk_ordering col false.

(** The comparison an ordering sorts by. Rows with equal keys come in no
    particular order in SQL; the model keeps them in table order. *)
Definition ordering_leb (o : ordering) (a b : TaskDB.t) : bool :=
  if ordering_asc o then ordering_col o a <=? ordering_col o b
  else ordering_col o b <=? ordering_col o a.

Record Select := mk_Select {
  whereclause : list (TaskDB.t -> bool);
  order_by_clause : option ordering;
  limit_clause : option Z;
  offset_clause : option Z;
  key_parameters : list Z
}.

(** [select(TaskDB)]. *)
Definition select_TaskDB : Select := mk_Select [] None None None [].

Definition where_ (stmt : Select) (cond : TaskDB.t -> bool) : Select :=
  mk_Select (whereclause stmt ++ [cond]) (order_by_clause stmt)
    (limit_clause stmt) (offset_clause stmt) (key_parameters stmt).

(** [stmt.where(TaskDB.id == task_id)]: the key is a parameter of the
    statement. *)
Definition where_id (stmt : Select) (k : Z) : Select :=
  mk_Select (whereclause stmt ++ [has_id k]) (order_by_clause stmt)
    (limit_clause stmt) (offset_clause stmt) (key_parameters stmt ++ [k]).

Definition order_by (stmt : Select) (o : ordering) : Select :=
  mk_Select (whereclause stmt) (Some o) (limit_clause stmt)
    (offset_clause stmt) (key_parameters stmt).

Definition limit_ (stmt : Select) (n : Z) : Select :=
  mk_Select (whereclause stmt) (order_by_clause stmt) (Some n)
    (offset_clause stmt) (key_parameters stmt).

Definition offset_ (stmt : Select) (n : Z) : Select :=
  mk_Select (whereclause stmt) (order_by_clause stmt) (limit_clause stmt)
    (Some n) (key_parameters stmt).

Definition satisfies (conds : list (TaskDB.t -> bool)) (r : TaskDB.t) : bool :=
  forallb (fun c => c r) conds.

(** The rows a statement selects: filter, order, skip, take. SQLite reads a
    negative OFFSET as none and a negative LIMIT as no limit. *)
Definition selected (stmt : Select) (db : Db) : list TaskDB.t :=
  let rows := filter (satisfies (whereclause stmt)) db in
  let rows :=
    match order_by_clause stmt with
    | Some o => sort_by (ordering_leb o) rows
    | None => rows
    end in
  let rows :=
    match offset_clause stmt with
    | Some n => skipn (Z.to_nat n) rows
    | None => rows
    end in
  match limit_clause stmt with
  | Some n => if n <? 0 then rows else firstn (Z.to_nat n) rows
  | None => rows
  end.

Definition int64_if_given (n : option Z) : bool :=
  match n with
  | Some n => int64 n
  | None => true
  end.

(** The parameters of a statement can all be bound. *)
Definition bindable (stmt : Select) (db : Db) : bool :=
  forallb (binds db) (key_parameters stmt)
  && int64_if_given (limit_clause stmt)
  && int64_if_given (offset_clause stmt).

(** [db.execute(stmt).scalars().all()]: raises [OverflowError] when a
    parameter cannot be bound. *)
Definition execute (stmt : Select) (db : Db)
  : session_result (list TaskDB.t) :=
  if bindable stmt db then Returns (selected stmt db) else Raises.

(** [select(func.count()).select_from(stmt.subquery())], executed with
    [scalar_one()]. *)
Definition count_subquery (stmt : Select) (db : Db) : session_result Z :=
  match execute stmt db with
  | Returns rows => Returns (Z.of_nat (List.length rows))
  | Raises => Raises
  end.

(** [getattr(TaskDB, sort)] for the columns the [sort] pattern admits. *)
Definition getattr_TaskDB (name : string) : option (TaskDB.t -> Z) :=
  if String.eqb name "id" then Some TaskDB.id
  else if String.eqb name "due_date" then Some TaskDB.due_date
  else if String.eqb name "created_at" then Some TaskDB.created_at
  else if String.eqb name "updated_at" then Some TaskDB.updated_at
  else None.

(** [[TaskOut.model_validate(t) for t in items]]. *)
Fixpoint model_validate_all (rows : list TaskDB.t) : option (list TaskOut.t) :=
  match rows with
  | [] => Some []
  | r :: rows' =>
      match TaskOut_model_validate r, model_validate_all rows' with
      | Some o, Some os => Some (o :: os)
      | _, _ => None
      end
  end.

(** [TaskDB.status.in_(statuses)]. *)
Definition in_ (statuses : list string) (r : TaskDB.t) : bool :=
  existsb (String.eqb (TaskDB.status r)) statuses.

(** Truth value of a [str]: the empty string is false. *)
Definition truthy (s : string) : bool := negb (String.eqb s EmptyString).

(** The [LIKE] pattern [f"%{search}%"]. *)
Definition pattern_of (search : string) : string :=
  String "%" (search ++ "%").

Definition title_match (search : string) (r : TaskDB.t) : bool :=
  ilike (TaskDB.title r) (pattern_of search).

(** [sort_col.asc() if order == "asc" else sort_col.desc()]. *)
Definition direction (order : string) (col : TaskDB.t -> Z) : ordering :=
  if String.eqb order "asc" then asc col else desc col.

(** The statement [list_tasks] builds from its filters and its ordering. *)
Definition list_stmt (status_filter : option (list TaskStatus))
  (q : option string) (task_id : option Z) (o : ordering) : Select :=
  let stmt := select_TaskDB in
  let stmt :=
    match status_filter with
    | Some ((_ :: _) as sf) => where_ stmt (in_ (map TaskStatus_value sf))
    | _ => stmt
    end in
  let stmt :=
    match task_id with
    | Some k => where_id stmt k
    | None => stmt
    end in
  let stmt :=
    match q with
    | Some q =>
        if truthy q then
          let search := strip q in
          if truthy search then where_ stmt (title_match search) else stmt
        else stmt
    | None => stmt
    end in
  order_by stmt o.

(** The body of [list_tasks], its parameters already validated. *)
Definition list_tasks (status_filter : option (list TaskStatus))
  (q : option string) (task_id : option Z) (limit offset : Z)
  (sort order : string) (db : Db) : Db * outcome TaskListOut.t :=
  match getattr_TaskDB sort with
  | None => (db, Unhandled)
  | Some sort_col =>
      let stmt :=
        list_stmt status_filter q task_id (direction order sort_col) in
      match count_subquery stmt db with
      | Raises => (db, Unhandled)
      | Returns total =>
          match execute (offset_ (limit_ stmt limit) offset) db with
          | Raises => (db, Unhandled)
          | Returns items =>
              match model_validate_all items with
              | Some out => (db, Reply HTTP_200_OK (TaskListOut.mk total out))
              | None => (db, Unhandled)
              end
          end
      end
  end.

(** The query string of [GET /tasks] before validation; [status] may be
    repeated. *)
Module ListQuery.
Record t := mk {
  status : list string;
  q : option string;
  id : option Z;
  limit : option Z;
  offset : option Z;
  sort : option string;
  order : option string
}.
End ListQuery.

Fixpoint parse_statuses (l : list string) : option (list TaskStatus) :=
  match l with
  | [] => Some []
  | s :: l' =>
      match TaskStatus_of_value s, parse_statuses l' with
      | Some st, Some sts => Some (st :: sts)
      | _, _ => None
      end
  end.

(** [pattern="^(id|due_date|created_at|updated_at)$"]. *)
Definition sort_pattern (s : string) : bool :=
  String.eqb s "id" || String.eqb s "due_date"
  || String.eqb s "created_at" || String.eqb s "updated_at".

(** [pattern="^(asc|desc)$"]. *)
Definition order_pattern (s : string) : bool :=
  String.eqb s "asc" || String.eqb s "desc".

Definition check (l : loc) (ok : bool) : list loc := if ok then [] else [l].

Definition default {A} (o : option A) (d : A) : A :=
  match o with
  | Some a => a
  | None => d
  end.

(** [GET /tasks]: the [Query] declarations of [list_tasks] supply the
    defaults and the constraints, then the body runs. *)
Definition GET_tasks (query : ListQuery.t) (db : Db)
  : Db * outcome TaskListOut.t :=
  let status_filter :=
    match ListQuery.status query with
    | [] => Some None
    | l => option_map Some (parse_statuses l)
    end in
  let task_id := ListQuery.id query in
  let limit := default (ListQuery.limit query) 20 in
  let offset := default (ListQuery.offset query) 0 in
  let sort := default (ListQuery.sort query) "due_date"%string in
  let order := default (ListQuery.order query) "asc"%string in
  let errs :=
    check loc_status (match status_filter with Some _ => true | None => false end)
    ++ check loc_id (match task_id with Some k => 1 <=? k | None => true end)
    ++ check loc_limit ((1 <=? limit) && (limit <=? 100))
    ++ check loc_offset (0 <=? offset)
    ++ check loc_sort (sort_pattern sort)
    ++ check loc_order (order_pattern order) in
  match errs, status_filter with
  | [], Some status_filter =>
      list_tasks status_filter (ListQuery.q query) task_id limit offset
        sort order db
  | _, _ => (db, ValidationError errs)
  end.

(** ** Sequences of mutating requests *)

Inductive request :=
| Create (payload : TaskCreate.t)
| Update (task_id : Z) (payload : TaskUpdate.t)
| Delete (task_id : Z).

(** One request served at clock reading [now]: the table it leaves. *)
Definition handle (now : naive_datetime) (r : request) (db : Db) : Db :=
  match r with
  | Create payload => fst (create_task now payload db)
  | Update task_id payload => fst (update_task now task_id payload db)
  | Delete task_id => fst (delete_task task_id db)
  end.

(** Requests served in order, each with the clock reading it saw; the table
    starts empty ([Base.metadata.create_all] at startup). *)
Definition run (events : list (naive_datetime * request)) (db : Db) : Db :=
  fold_left (fun db e => handle (fst e) (snd e) db) events db.

Definition reachable (db : Db) : Prop := exists events, run events [] = db.

(** Clock readings that never go back: each is at least [lo] and at least
    the one before. *)
Fixpoint nondecreasing (lo : Z) (l : list Z) : bool :=
  match l with
  | [] => true
  | t :: l' => (lo <=? t) && nondecreasing t l'
  end.

Definition clock_monotone (l : list Z) : bool :=
  match l with
  | [] => true
  | t :: l' => nondecreasing t l'
  end.

Definition is_delete_of (k : Z) (r : request) : bool :=
  match r with
  | Delete j => j =? k
  | _ => false
  end.

(** No request of the sequence deletes id [k]. *)
Definition never_deletes (k : Z) (events : list (naive_datetime * request)) : bool :=
  forallb (fun e => negb (is_delete_of k (snd e))) events.

(** ** Well-formed tables *)

Definition valid_status (r : TaskDB.t) : bool :=
  match TaskStatus_of_value (TaskDB.status r) with
  | Some _ => true
  | None => false
  end.

Fixpoint unique (l : list Z) : bool :=
  match l with
  | [] => true
  | x :: l' => negb (existsb (Z.eqb x) l') && unique l'
  end.

Definition ids (db : Db) : list Z := map TaskDB.id db.

(** Every stored status is an enum value, keys are positive and no key
    occurs twice. *)
Definition db_ok (db : Db) : bool :=
  forallb valid_status db && forallb (Z.leb 1) (ids db) && unique (ids db).

(** ** What the claims speak about *)

(** Title and description limits of the data model. *)
Definition title_within_limits (f : field string) : Prop :=
  exists s, f = Value s /\ 1 <= str_len s <= 200.

Definition title_outside_limits (f : field string) : Prop :=
  exists s, f = Value s /\ (str_len s = 0 \/ 200 < str_len s).

Definition description_within_limits (f : field string) : Prop :=
  f <> Invalid /\ forall d, f = Value d -> str_len d <= 10000.

Definition description_outside_limits (f : field string) : Prop :=
  exists d, f = Value d /\ 10000 < str_len d.

(** An optional status: left out, or one of the enum's values. *)
Definition status_field_ok (f : field string) (st : TaskStatus) : Prop :=
  (f = Missing /\ st = pending) \/ f = Value (TaskStatus_value st).

(** What a body supplies for a field: nothing, null, or a value. *)
Definition supplied {A} (f : field A) : option (option A) :=
  match f with
  | Missing | Invalid => None
  | Null => Some None
  | Value a => Some (Some a)
  end.

(** The status a body gives a value for, read as an enum member. *)
Definition status_of_field (f : field string) : option TaskStatus :=
  match f with
  | Value s => TaskStatus_of_value s
  | _ => None
  end.

(** A field of an updated row against the payload: the supplied value if one
    was supplied, the old one otherwise. *)
Definition updated_to {A} (supplied : option A) (old new : A) : Prop :=
  match supplied with
  | Some v => new = v
  | None => new = old
  end.


(** ** What the listing claims speak about *)

(** A row matches the filters of a list request: its status is one of the
    requested ones when a non-empty status filter is given, its id is the
    requested one when an id is given, and its title matches the pattern
    built from the stripped search text when that text is not empty. *)
Definition task_matches (status_filter : option (list TaskStatus))
  (q : option string) (task_id : option Z) (r : TaskDB.t) : bool :=
  match status_filter with
  | Some ((_ :: _) as sf) => in_ (map TaskStatus_value sf) r
  | _ => true
  end
  && match task_id with
     | Some k => has_id k r
     | None => true
     end
  && match q with
     | Some q => if truthy (strip q) then title_match (strip q) r else true
     | None => true
     end.

(** The page of a list: at most [limit] elements starting at [offset]. *)
Definition window {A} (limit offset : Z) (l : list A) : list A :=
  firstn (Z.to_nat limit) (skipn (Z.to_nat offset) l).

(** The sort columns, read from a returned record. *)
Definition TaskOut_column (name : string) : option (TaskOut.t -> Z) :=
  if String.eqb name "id" then Some TaskOut.id
  else if String.eqb name "due_date"
  then Some (fun o => fields (TaskOut.due_date o))
  else if String.eqb name "created_at"
  then Some (fun o => fields (TaskOut.created_at o))
  else if String.eqb name "updated_at"
  then Some (fun o => fields (TaskOut.updated_at o))
  else None.


(** The limits on the parameters of a list request. *)
Definition valid_query (query : ListQuery.t) : bool :=
  forallb (fun s => match TaskStatus_of_value s with
                    | Some _ => true
                    | None => false
                    end) (ListQuery.status query)
  && match ListQuery.id query with
     | Some k => 1 <=? k
     | None => true
     end
  && (1 <=? default (ListQuery.limit query) 20)
  && (default (ListQuery.limit query) 20 <=? 100)
  && (0 <=? default (ListQuery.offset query) 0)
  && sort_pattern (default (ListQuery.sort query) "due_date"%string)
  && order_pattern (default (ListQuery.order query) "asc"%string).








(** ** Requests as they arrive at the endpoints *)

(** The mutating endpoints with their bodies as sent. *)
Inductive api_request :=
| POST (body : CreateBody.t)
| PATCH (task_id : Z) (body : UpdateBody.t)
| DELETE (task_id : Z).

(** One request served through its endpoint, validation included. *)
Definition serve (now : naive_datetime) (r : api_request) (db : Db) : Db :=
  match r with
  | POST body => fst (POST_tasks now body db)
  | PATCH task_id body => fst (PATCH_task now task_id body db)
  | DELETE task_id => fst (delete_task task_id db)
  end.

Definition serve_all (events : list (naive_datetime * api_request)) (db : Db) : Db :=
  fold_left (fun db e => serve (fst e) (snd e) db) events db.

(** The length limits of [TaskBase] and [TaskUpdate], read on a stored row. *)
Definition within_limits (r : TaskDB.t) : bool :=
  (1 <=? str_len (TaskDB.title r)) && (str_len (TaskDB.title r) <=? 200)
  && match TaskDB.description r with
     | Some d => str_len d <=? 10000
     | None => true
     end.

(** A status sent in a body that is not a value of the enum. *)
Definition status_unknown (f : field string) : Prop :=
  exists s, f = Value s /\ TaskStatus_of_value s = None.

(** An outcome that is an error answer rather than a reply. *)
Definition is_error {A} (o : outcome A) : bool :=
  match o with
  | Reply _ _ => false
  | _ => true
  end.



(** Keys in strictly increasing order. *)
Fixpoint increasing (l : list Z) : bool :=
  match l with
  | [] => true
  | x :: l' => forallb (Z.ltb x) l' && increasing l'
  end.

(** A create body that meets every constraint of [TaskCreate]: a title
    within its limits, a description within its limits, a due date, and a
    status that is left out or a value of the enum. *)
Definition create_body_valid (b : CreateBody.t) : Prop :=
  title_within_limits (CreateBody.title b)
  /\ description_within_limits (CreateBody.description b)
  /\ (exists du, CreateBody.due_date b = Value du)
  /\ (exists st, status_field_ok (CreateBody.status b) st).

(** The first value if there is one, the second otherwise. *)
Definition or_else {A} (a b : option A) : option A :=
  match a with
  | Some _ => a
  | None => b
  end.

(** Two partial updates read as one: each field comes from the later update
    if it supplies it, from the earlier one otherwise. *)
Definition merge_update (later earlier : TaskUpdate.t) : TaskUpdate.t :=
  TaskUpdate.mk
    (or_else (TaskUpdate.title later) (TaskUpdate.title earlier))
    (or_else (TaskUpdate.description later) (TaskUpdate.description earlier))
    (or_else (TaskUpdate.status later) (TaskUpdate.status earlier))
    (or_else (TaskUpdate.due_date later) (TaskUpdate.due_date earlier)).

(** The due date of an updated record against the payload: the supplied one
    when one without UTC offset was supplied, the old one when none was. *)
Definition due_date_updated_to (supplied : option datetime)
  (old new : datetime) : Prop :=
  match supplied with
  | Some d => utcoffset d = None -> new = d
  | None => new = old
  end.

(** A body member that is not of its field's type. *)
Definition malformed {A} (f : field A) : Prop := f = Invalid.



(** The id filter of a list request, when there is one, can be bound. *)
Definition key_binds (db : Db) (task_id : option Z) : bool :=
  match task_id with
  | Some k => binds db k
  | None => true
  end.
(** ** Basic facts *)

Lemma TaskStatus_of_value_value (s : TaskStatus) :
  TaskStatus_of_value (TaskStatus_value s) = Some s.
Proof. destruct s; reflexivity. Qed.

Lemma TaskStatus_of_value_inv (s : string) (st : TaskStatus) :
  TaskStatus_of_value s = Some st -> s = TaskStatus_value st.
Proof.
  unfold TaskStatus_of_value.
  destruct (String.eqb_spec s "pending"); [intros [= <-]; assumption|].
  destruct (String.eqb_spec s "in_progress"); [intros [= <-]; assumption|].
  destruct (String.eqb_spec s "completed"); [intros [= <-]; assumption|].
  discriminate.
Qed.

Lemma has_id_true (k : Z) (r : TaskDB.t) : has_id k r = true <-> TaskDB.id r = k.
Proof. unfold has_id. apply Z.eqb_eq. Qed.

Lemma has_id_false (k : Z) (r : TaskDB.t) : has_id k r = false <-> TaskDB.id r <> k.
Proof. unfold has_id. apply Z.eqb_neq. Qed.

Lemma ids_below_next_rowid (db : Db) (r : TaskDB.t) :
  In r db -> TaskDB.id r < next_rowid db.
Proof.
  unfold next_rowid.
  induction db as [|x db IH]; cbn [fold_right map In]; [tauto|].
  intros [->|Hin]; [|specialize (IH Hin)]; lia.
Qed.

Lemma next_rowid_positive (db : Db) : 1 <= next_rowid db.
Proof.
  unfold next_rowid. induction db as [|x db IH]; cbn [fold_right map]; lia.
Qed.

Lemma db_get_In (k : Z) (db : Db) (r : TaskDB.t) :
  db_get k db = Some r -> In r db /\ TaskDB.id r = k.
Proof.
  unfold db_get. intros H. apply find_some in H.
  destruct H as [Hin Hid]. split; [assumption|]. now apply has_id_true.
Qed.

Lemma db_get_None (k : Z) (db : Db) :
  db_get k db = None <-> ~ In k (ids db).
Proof.
  unfold db_get, ids. induction db as [|x db IH]; simpl.
  - tauto.
  - destruct (has_id k x) eqn:E.
    + apply has_id_true in E. split; [discriminate|]. intros H. exfalso. auto.
    + apply has_id_false in E. rewrite IH. tauto.
Qed.

Lemma db_get_app_fresh (k : Z) (db : Db) (r : TaskDB.t) :
  ~ In k (ids db) -> TaskDB.id r = k -> db_get k (db ++ [r]) = Some r.
Proof.
  intros Hfresh Hid. unfold db_get. induction db as [|x db IH]; simpl.
  - apply has_id_true in Hid. now rewrite Hid.
  - simpl in Hfresh. destruct (has_id k x) eqn:E.
    + apply has_id_true in E. tauto.
    + apply IH. tauto.
Qed.

Lemma db_get_app_old (k : Z) (db : Db) (r : TaskDB.t) :
  TaskDB.id r <> k -> db_get k (db ++ [r]) = db_get k db.
Proof.
  intros Hid. unfold db_get. induction db as [|x db IH]; simpl.
  - apply has_id_false in Hid. now rewrite Hid.
  - destruct (has_id k x); [reflexivity|assumption].
Qed.

Lemma binds_stored (k : Z) (db : Db) (task : TaskDB.t) :
  db_get k db = Some task -> binds db k = true.
Proof.
  intros Hg. unfold binds. apply orb_true_iff. right.
  apply existsb_exists. exists task. unfold db_get in Hg.
  apply find_some in Hg. exact Hg.
Qed.

Lemma binds_absent (k : Z) (db : Db) :
  db_get k db = None -> binds db k = int64 k.
Proof.
  intros Hg. unfold binds.
  destruct (existsb (has_id k) db) eqn:E; [|apply orb_false_r].
  apply existsb_exists in E as [r [Hin Hid]]. unfold db_get in Hg.
  now rewrite (find_none _ _ Hg r Hin) in Hid.
Qed.

Lemma Session_get_found (k : Z) (db : Db) (task : TaskDB.t) :
  db_get k db = Some task -> Session_get k db = Returns (Some task).
Proof.
  intros Hg. unfold Session_get. now rewrite (binds_stored k db task Hg), Hg.
Qed.

Lemma Session_get_absent (k : Z) (db : Db) :
  db_get k db = None ->
  Session_get k db = if int64 k then Returns None else Raises.
Proof.
  intros Hg. unfold Session_get. rewrite (binds_absent k db Hg), Hg.
  reflexivity.
Qed.

(** The cases of a lookup by the session. *)
Lemma Session_get_cases (k : Z) (db : Db) :
  (exists task, db_get k db = Some task
                /\ Session_get k db = Returns (Some task))
  \/ (db_get k db = None /\ int64 k = true /\ Session_get k db = Returns None)
  \/ (db_get k db = None /\ int64 k = false /\ Session_get k db = Raises).
Proof.
  destruct (db_get k db) as [task|] eqn:Hg.
  - left. exists task. split; [reflexivity|now apply Session_get_found].
  - right. rewrite (Session_get_absent k db Hg).
    destruct (int64 k); [left|right]; auto.
Qed.

Lemma next_rowid_fresh (db : Db) : ~ In (next_rowid db) (ids db).
Proof.
  unfold ids. rewrite in_map_iff. intros [r [Hid Hin]].
  apply ids_below_next_rowid in Hin. lia.
Qed.

Lemma check_length_nil (l : loc) (lo hi : Z) (s : string) :
  check_length l lo hi s = [] <-> lo <= str_len s <= hi.
Proof.
  unfold check_length.
  destruct (Z.ltb_spec (str_len s) lo), (Z.ltb_spec hi (str_len s));
    simpl; split; intros; try discriminate; try lia; reflexivity.
Qed.

Lemma check_length_In (l l' : loc) (lo hi : Z) (s : string) :
  In l' (check_length l lo hi s) -> l' = l /\ ~ lo <= str_len s <= hi.
Proof.
  unfold check_length.
  destruct (Z.ltb_spec (str_len s) lo), (Z.ltb_spec hi (str_len s));
    simpl; intros Hin; try tauto; destruct Hin as [<-|[]]; split;
    try reflexivity; lia.
Qed.

Lemma str_len_nonneg (s : string) : 0 <= str_len s.
Proof. unfold str_len. lia. Qed.

Lemma reply_task_valid (code : Z) (task : TaskDB.t) (st : TaskStatus) :
  TaskDB.status task = TaskStatus_value st ->
  reply_task code task =
    Reply code
      (TaskOut.mk (TaskDB.id task) (TaskDB.title task) (TaskDB.description task)
         st (naive (TaskDB.due_date task)) (naive (TaskDB.created_at task))
         (naive (TaskDB.updated_at task))).
Proof.
  intros Hst. unfold reply_task, TaskOut_model_validate.
  now rewrite Hst, TaskStatus_of_value_value.
Qed.

(** ** Create *)

Lemma status_with_default_ok (f : field string) (st : TaskStatus) :
  status_field_ok f st -> status_with_default f = ([], st).
Proof.
  intros [[-> ->]| ->]; simpl; [reflexivity|].
  now rewrite TaskStatus_of_value_value.
Qed.

Lemma optional_str_ok (l : loc) (hi : Z) (f : field string) :
  description_within_limits f ->
  hi = 10000 ->
  optional_str l 0 hi f = ([], optional f).
Proof.
  intros [Hv Hd] ->. destruct f as [| |d|]; simpl; try reflexivity;
    [|congruence].
  assert (H : check_length l 0 10000 d = []).
  { apply check_length_nil. split; [apply str_len_nonneg|]. now apply Hd. }
  now rewrite H.
Qed.

Lemma TaskCreate_validate_ok (body : CreateBody.t) (ti : string)
  (du : datetime) (st : TaskStatus) :
  CreateBody.title body = Value ti ->
  1 <= str_len ti <= 200 ->
  description_within_limits (CreateBody.description body) ->
  CreateBody.due_date body = Value du ->
  status_field_ok (CreateBody.status body) st ->
  TaskCreate_validate body =
    inr (TaskCreate.mk ti (optional (CreateBody.description body)) du st).
Proof.
  intros Hti Hlen Hde Hdu Hst. unfold TaskCreate_validate.
  rewrite Hti, Hdu, (status_with_default_ok _ _ Hst).
  rewrite (optional_str_ok _ _ _ Hde eq_refl). cbn [required_str required].
  now rewrite (proj2 (check_length_nil loc_title 1 200 ti) Hlen).
Qed.

Lemma create_task_spec (now : naive_datetime) (payload : TaskCreate.t) (db : Db) :
  let out :=
    TaskOut.mk (next_rowid db) (TaskCreate.title payload)
      (TaskCreate.description payload) (TaskCreate.status payload)
      (naive (fields (TaskCreate.due_date payload))) (naive now) (naive now) in
  exists row,
    create_task now payload db = (db ++ [row], Reply HTTP_201_CREATED out) /\
    TaskDB.id row = next_rowid db /\
    TaskDB.status row = TaskStatus_value (TaskCreate.status payload) /\
    TaskDB.created_at row = now /\ TaskDB.updated_at row = now /\
    TaskOut_model_validate row = Some out.
Proof.
  intros out. unfold create_task, db_add. eexists. split.
  - rewrite (reply_task_valid _ _ (TaskCreate.status payload)); reflexivity.
  - unfold TaskOut_model_validate. simpl.
    now rewrite TaskStatus_of_value_value.
Qed.

(** C1. What a valid create request returns. A create
    request with valid fields (a title of 1 to 200 characters, a description
    that is left out, null or at most 10,000 characters long, a due date, a
    status that is left out or an enum value) is answered 201 with a record
    whose title, description and status are those of the request, the status
    being pending when the request leaves it out; the id is the next key of
    the table, not in use before, and both timestamps are the server's clock
    reading; fetching that id from the resulting table answers 200 with the
    same record. The due date of the record has the date and time fields of
    the one sent and no UTC offset: it is the one sent when that has no
    offset, and differs from it when it has one. *)
Theorem create_returns_due_date_without_offset
  (now : naive_datetime) (body : CreateBody.t) (db : Db)
  (ti : string) (du : datetime) (st : TaskStatus) :
  CreateBody.title body = Value ti ->
  1 <= str_len ti <= 200 ->
  description_within_limits (CreateBody.description body) ->
  CreateBody.due_date body = Value du ->
  status_field_ok (CreateBody.status body) st ->
  exists out db',
    POST_tasks now body db = (db', Reply HTTP_201_CREATED out) /\
    TaskOut.title out = ti /\
    TaskOut.description out = optional (CreateBody.description body) /\
    TaskOut.due_date out = naive (fields du) /\
    (utcoffset du = None -> TaskOut.due_date out = du) /\
    (utcoffset du <> None -> TaskOut.due_date out <> du) /\
    TaskOut.status out = st /\
    (CreateBody.status body = Missing -> TaskOut.status out = pending) /\
    TaskOut.id out = next_rowid db /\
    ~ In (TaskOut.id out) (ids db) /\
    TaskOut.created_at out = naive now /\
    TaskOut.updated_at out = naive now /\
    get_task (TaskOut.id out) db' = (db', Reply HTTP_200_OK out).
Proof.
  intros Hti Hlen Hde Hdu Hst. unfold POST_tasks.
  rewrite (TaskCreate_validate_ok body ti du st) by assumption.
  destruct (create_task_spec now
              (TaskCreate.mk ti (optional (CreateBody.description body)) du st)
              db) as [row [Hc [Hid [Hs [_ [_ Hv]]]]]].
  simpl in Hc, Hv. rewrite Hc. do 2 eexists. split; [reflexivity|]. simpl.
  repeat split; try apply next_rowid_fresh.
  - intros Hoff. destruct du as [f o]. simpl in *. now subst o.
  - intros Hoff Heq. apply Hoff. now rewrite <- Heq.
  - intros Hm. destruct Hst as [[_ ->]|Hval]; [reflexivity|].
    rewrite Hm in Hval. discriminate.
  - unfold get_task.
    rewrite (Session_get_found (next_rowid db) _ row).
    + unfold reply_task. now rewrite Hv.
    + apply db_get_app_fresh; auto using next_rowid_fresh.
Qed.

Lemma create_returns_due_date_without_offset_witness :
  let sent := mk_datetime 42 (Some 0) in
  exists out db',
    POST_tasks 7 (CreateBody.mk (Value "Task 1"%string) Null (Value sent)
                    Missing) []
      = (db', Reply HTTP_201_CREATED out) /\
    TaskOut.title out = "Task 1"%string /\
    TaskOut.status out = pending /\
    TaskOut.due_date out = naive 42 /\
    TaskOut.due_date out <> sent.
Proof.
  intros sent.
  destruct (create_returns_due_date_without_offset 7
              (CreateBody.mk (Value "Task 1"%string) Null (Value sent) Missing)
              [] "Task 1"%string sent pending)
    as [out [db' [H1 [H2 [_ [H4 [_ [H6 [H7 _]]]]]]]]].
  - reflexivity.
  - vm_compute. split; discriminate.
  - split; [discriminate|]. intros d Hd. discriminate.
  - reflexivity.
  - left. split; reflexivity.
  - exists out, db'. repeat split; try assumption. apply H6. discriminate.
Defined.

Lemma TaskCreate_validate_errors (body : CreateBody.t) (errs : list loc) :
  TaskCreate_validate body = inl errs ->
  errs =
    fst (required_str loc_title 1 200 (CreateBody.title body))
    ++ fst (optional_str loc_description 0 10000 (CreateBody.description body))
    ++ fst (required loc_due_date (naive 0) (CreateBody.due_date body))
    ++ fst (status_with_default (CreateBody.status body)).
Proof.
  unfold TaskCreate_validate.
  destruct (required_str _ _ _ _) as [e1 ti], (optional_str _ _ _ _) as [e2 de],
    (required _ _ _) as [e3 du], (status_with_default _) as [e4 st]. simpl.
  destruct (e1 ++ e2 ++ e3 ++ e4); [discriminate|]. now intros [= <-].
Qed.

Lemma TaskCreate_validate_rejects (body : CreateBody.t) :
  title_outside_limits (CreateBody.title body)
  \/ description_outside_limits (CreateBody.description body) ->
  exists errs, TaskCreate_validate body = inl errs.
Proof.
  intros H. unfold TaskCreate_validate.
  destruct (required_str _ _ _ _) as [e1 ti] eqn:E1,
    (optional_str _ _ _ _) as [e2 de] eqn:E2,
    (required _ _ _) as [e3 du], (status_with_default _) as [e4 st].
  assert (Hne : e1 ++ e2 ++ e3 ++ e4 <> []).
  { destruct H as [[s [Hs Hlen]]|[d [Hd Hlen]]].
    - rewrite Hs in E1. simpl in E1. injection E1 as <- _.
      destruct (check_length loc_title 1 200 s) eqn:Ec; [|discriminate].
      apply check_length_nil in Ec. lia.
    - rewrite Hd in E2. simpl in E2. injection E2 as <- _.
      destruct (check_length loc_description 0 10000 d) eqn:Ec.
      + apply check_length_nil in Ec. lia.
      + intros Happ. apply app_eq_nil in Happ as [_ Happ].
        apply app_eq_nil in Happ as [Happ _]. discriminate. }
  destruct (e1 ++ e2 ++ e3 ++ e4) as [|e errs]; [congruence|].
  now exists (e :: errs).
Qed.

Lemma create_task_never_422 (now : naive_datetime) (payload : TaskCreate.t) (db : Db)
  (errs : list loc) :
  snd (create_task now payload db) <> ValidationError errs.
Proof.
  destruct (create_task_spec now payload db) as [row [Hc _]].
  rewrite Hc. discriminate.
Qed.

Lemma In_required_str (l l' : loc) (lo hi : Z) (f : field string) :
  In l' (fst (required_str l lo hi f)) ->
  l' = l /\ forall s, f = Value s -> ~ lo <= str_len s <= hi.
Proof.
  destruct f as [| |s|]; simpl.
  1,2,4: intros [<-|[]]; split; [reflexivity|discriminate].
  intros Hin. apply check_length_In in Hin as [-> Hn]. split; [reflexivity|].
  now intros s' [= <-].
Qed.

Lemma In_optional_str (l l' : loc) (lo hi : Z) (f : field string) :
  In l' (fst (optional_str l lo hi f)) ->
  l' = l /\ (f = Invalid \/ exists s, f = Value s /\ ~ lo <= str_len s <= hi).
Proof.
  destruct f as [| |s|]; simpl; try tauto.
  - intros Hin. apply check_length_In in Hin as [-> Hn]. split; [reflexivity|].
    right. now exists s.
  - intros [<-|[]]. auto.
Qed.

Lemma In_required {A} (l l' : loc) (dflt : A) (f : field A) :
  In l' (fst (required l dflt f)) -> l' = l.
Proof. destruct f; simpl; intros H; try tauto; destruct H as [<-|[]]; auto. Qed.

Lemma In_status_with_default (l' : loc) (f : field string) :
  In l' (fst (status_with_default f)) -> l' = loc_status.
Proof.
  destruct f as [| |s|]; simpl; try tauto;
    try destruct (TaskStatus_of_value s); simpl; try tauto;
    intros [<-|[]]; reflexivity.
Qed.

(** C2. A create request whose title is empty or longer than 200 characters,
    or whose description is longer than 10,000 characters, is answered 422
    and leaves the table as it was; when a create request is answered with a
    validation error, the title is not among the fields in error if it has 1
    to 200 characters, and the description is not among them if it is left
    out, null or at most 10,000 characters long. *)
Theorem create_validation_limits
  (now : naive_datetime) (body : CreateBody.t) (db : Db) :
  (title_outside_limits (CreateBody.title body)
   \/ description_outside_limits (CreateBody.description body) ->
   exists errs,
     POST_tasks now body db = (db, ValidationError errs) /\
     status_code_of (snd (POST_tasks now body db)) = HTTP_422_UNPROCESSABLE) /\
  (forall db' errs,
     POST_tasks now body db = (db', ValidationError errs) ->
     (title_within_limits (CreateBody.title body) -> ~ In loc_title errs) /\
     (description_within_limits (CreateBody.description body) ->
      ~ In loc_description errs)).
Proof.
  split.
  - intros H. destruct (TaskCreate_validate_rejects body H) as [errs He].
    exists errs. unfold POST_tasks. rewrite He. now split.
  - intros db' errs. unfold POST_tasks.
    destruct (TaskCreate_validate body) as [errs'|payload] eqn:Ev.
    + intros [= <- <-]. apply TaskCreate_validate_errors in Ev. subst errs'.
      split.
      * intros [s [Hs Hlen]] Hin.
        apply in_app_or in Hin as [Hin|Hin].
        { apply In_required_str in Hin as [_ Hn]. now apply (Hn s). }
        apply in_app_or in Hin as [Hin|Hin].
        { apply In_optional_str in Hin as [[=] _]. }
        apply in_app_or in Hin as [Hin|Hin].
        { apply In_required in Hin. discriminate. }
        apply In_status_with_default in Hin. discriminate.
      * intros [Hv Hd] Hin. apply in_app_or in Hin as [Hin|Hin].
        { apply In_required_str in Hin as [[=] _]. }
        apply in_app_or in Hin as [Hin|Hin].
        { apply In_optional_str in Hin as [_ [Hi|[d [Hdv Hn]]]];
            [contradiction|].
          apply Hn. split; [apply str_len_nonneg|]. now apply Hd. }
        apply in_app_or in Hin as [Hin|Hin].
        { apply In_required in Hin. discriminate. }
        apply In_status_with_default in Hin. discriminate.
    + intros Hc. exfalso.
      apply (create_task_never_422 now payload db errs).
      now rewrite Hc.
Qed.

Lemma create_validation_limits_witness :
  (exists errs,
     POST_tasks 7 (CreateBody.mk (Value EmptyString) Null (Value (naive 42)) Missing) []
       = ([], ValidationError errs)) /\
  (forall db' errs,
     POST_tasks 7 (CreateBody.mk (Value "Task 1"%string) Null Missing Missing) []
       = (db', ValidationError errs) ->
     ~ In loc_title errs /\ ~ In loc_description errs).
Proof.
  split.
  - destruct (proj1 (create_validation_limits 7
        (CreateBody.mk (Value EmptyString) Null (Value (naive 42)) Missing) []))
      as [errs [H _]].
    + left. exists EmptyString. split; [reflexivity|]. left. reflexivity.
    + now exists errs.
  - intros db' errs H.
    destruct (proj2 (create_validation_limits 7
        (CreateBody.mk (Value "Task 1"%string) Null Missing Missing) [])
        db' errs H) as [Ht Hd].
    split.
    + apply Ht. exists "Task 1"%string. split; [reflexivity|].
      vm_compute. split; discriminate.
    + apply Hd. split; [discriminate|]. intros d Hd'. discriminate.
Defined.

(** ** Get, update, delete *)

Lemma db_ok_parts (db : Db) :
  db_ok db = true ->
  forallb valid_status db = true /\ forallb (Z.leb 1) (ids db) = true
  /\ unique (ids db) = true.
Proof.
  unfold db_ok. intros H.
  apply andb_true_iff in H as [H H3]. apply andb_true_iff in H as [H1 H2].
  auto.
Qed.

Lemma db_ok_valid_status (db : Db) (r : TaskDB.t) :
  db_ok db = true -> In r db ->
  exists st, TaskDB.status r = TaskStatus_value st.
Proof.
  intros Hok Hin. apply db_ok_parts in Hok as [Hv _].
  rewrite forallb_forall in Hv. specialize (Hv r Hin).
  unfold valid_status in Hv.
  destruct (TaskStatus_of_value (TaskDB.status r)) as [st|] eqn:E;
    [|discriminate].
  exists st. now apply TaskStatus_of_value_inv.
Qed.

Lemma model_validate_total (db : Db) (r : TaskDB.t) :
  db_ok db = true -> In r db ->
  exists out, TaskOut_model_validate r = Some out.
Proof.
  intros Hok Hin. destruct (db_ok_valid_status db r Hok Hin) as [st Hst].
  unfold TaskOut_model_validate. rewrite Hst, TaskStatus_of_value_value.
  eexists. reflexivity.
Qed.

Lemma get_task_reply (k : Z) (db db' : Db) (code : Z) (out : TaskOut.t) :
  get_task k db = (db', Reply code out) ->
  exists task,
    db_get k db = Some task /\ TaskOut_model_validate task = Some out
    /\ db' = db /\ code = HTTP_200_OK.
Proof.
  unfold get_task, reply_task.
  destruct (Session_get_cases k db)
    as [[task [Hg ->]]|[[_ [_ ->]]|[_ [_ ->]]]]; try discriminate.
  destruct (TaskOut_model_validate task) as [o|] eqn:E; [|discriminate].
  intros [= <- <- <-]. now exists task.
Qed.

Lemma get_task_found (k : Z) (db : Db) (task : TaskDB.t) :
  db_get k db = Some task -> get_task k db = (db, reply_task HTTP_200_OK task).
Proof. intros Hg. unfold get_task. now rewrite (Session_get_found k db task Hg). Qed.

Lemma delete_task_found (k : Z) (db : Db) (task : TaskDB.t) :
  db_get k db = Some task ->
  delete_task k db = (db_delete task db, Reply HTTP_204_NO_CONTENT tt).
Proof.
  intros Hg. unfold delete_task. now rewrite (Session_get_found k db task Hg).
Qed.

Lemma get_task_absent (k : Z) (db : Db) :
  db_get k db = None ->
  get_task k db = (db, if int64 k then not_found else Unhandled).
Proof.
  intros Hg. unfold get_task. rewrite (Session_get_absent k db Hg).
  now destruct (int64 k).
Qed.

Lemma db_get_update_same (task old : TaskDB.t) (db : Db) :
  db_get (TaskDB.id task) db = Some old ->
  db_get (TaskDB.id task) (db_update task db) = Some task.
Proof.
  unfold db_get, db_update. induction db as [|x db IH]; simpl; [discriminate|].
  destruct (has_id (TaskDB.id task) x) eqn:E; simpl.
  - intros _. unfold has_id. now rewrite Z.eqb_refl.
  - rewrite E. exact IH.
Qed.

Lemma db_get_update_other (k : Z) (task : TaskDB.t) (db : Db) :
  k <> TaskDB.id task ->
  db_get k (db_update task db) = db_get k db.
Proof.
  intros Hk. unfold db_get, db_update. induction db as [|x db IH]; simpl;
    [reflexivity|].
  destruct (has_id (TaskDB.id task) x) eqn:E; simpl.
  - apply has_id_true in E.
    assert (H1 : has_id k task = false) by (apply has_id_false; congruence).
    assert (H2 : has_id k x = false) by (apply has_id_false; congruence).
    now rewrite H1, H2.
  - destruct (has_id k x); [reflexivity|exact IH].
Qed.

Lemma ids_db_update (task : TaskDB.t) (db : Db) :
  ids (db_update task db) = ids db.
Proof.
  unfold ids, db_update. rewrite map_map. apply map_ext_in.
  intros r _. destruct (has_id (TaskDB.id task) r) eqn:E; [|reflexivity].
  apply has_id_true in E. congruence.
Qed.

Lemma update_task_spec
  (now : naive_datetime) (task_id : Z) (payload : TaskUpdate.t) (db : Db)
  (old : TaskOut.t) :
  get_task task_id db = (db, Reply HTTP_200_OK old) ->
  exists out db',
    update_task now task_id payload db = (db', Reply HTTP_200_OK out) /\
    updated_to (TaskUpdate.title payload) (TaskOut.title old) (TaskOut.title out) /\
    updated_to (option_map Some (TaskUpdate.description payload))
      (TaskOut.description old) (TaskOut.description out) /\
    updated_to (TaskUpdate.status payload) (TaskOut.status old) (TaskOut.status out) /\
    updated_to
      (option_map (fun d => naive (fields d)) (TaskUpdate.due_date payload))
      (TaskOut.due_date old) (TaskOut.due_date out) /\
    TaskOut.updated_at out = naive now /\
    TaskOut.id out = task_id /\
    TaskOut.id out = TaskOut.id old /\
    TaskOut.created_at out = TaskOut.created_at old /\
    get_task task_id db' = (db', Reply HTTP_200_OK out) /\
    (forall k, k <> task_id -> db_get k db' = db_get k db) /\
    ids db' = ids db.
Proof.
  intros Hget.
  destruct (get_task_reply _ _ _ _ _ Hget) as [task [Hg [Hv _]]].
  destruct (db_get_In _ _ _ Hg) as [Hin Hid].
  unfold TaskOut_model_validate in Hv.
  destruct (TaskStatus_of_value (TaskDB.status task)) as [st0|] eqn:Est;
    [|discriminate].
  injection Hv as <-. simpl.
  unfold update_task. rewrite (Session_get_found _ _ _ Hg).
  set (st := match TaskUpdate.status payload with
             | Some s => s
             | None => st0
             end).
  set (task' := TaskDB.mk _ _ _ _ _ _ _).
  assert (Hst : TaskDB.status task' = TaskStatus_value st).
  { subst task' st. simpl. destruct (TaskUpdate.status payload);
      [reflexivity|now apply TaskStatus_of_value_inv]. }
  rewrite (reply_task_valid _ _ st Hst).
  do 2 eexists. split; [reflexivity|]. simpl.
  assert (Hid' : TaskDB.id task' = task_id) by exact Hid.
  repeat split.
  - destruct (TaskUpdate.title payload); reflexivity.
  - destruct (TaskUpdate.description payload); reflexivity.
  - subst st. destruct (TaskUpdate.status payload); reflexivity.
  - destruct (TaskUpdate.due_date payload); reflexivity.
  - exact Hid.
  - rewrite (get_task_found task_id _ task').
    + now rewrite (reply_task_valid _ _ st Hst).
    + rewrite <- Hid' at 1. apply (db_get_update_same task' task).
      rewrite Hid'. exact Hg.
  - intros k Hk. apply db_get_update_other. rewrite Hid'. exact Hk.
  - apply ids_db_update.
Qed.

Lemma TaskUpdate_validate_fields (body : UpdateBody.t) (payload : TaskUpdate.t) :
  TaskUpdate_validate body = inr payload ->
  TaskUpdate.title payload = optional (UpdateBody.title body) /\
  TaskUpdate.description payload = optional (UpdateBody.description body) /\
  TaskUpdate.status payload = status_of_field (UpdateBody.status body) /\
  TaskUpdate.due_date payload = optional (UpdateBody.due_date body).
Proof.
  unfold TaskUpdate_validate.
  destruct (optional_str loc_title 1 200 _) as [e1 ti] eqn:E1.
  destruct (optional_str loc_description 0 10000 _) as [e2 de] eqn:E2.
  destruct (status_optional _) as [e3 st] eqn:E3.
  destruct (optional_field loc_due_date _) as [e4 du] eqn:E4.
  destruct (e1 ++ e2 ++ e3 ++ e4) eqn:Ee; [|discriminate]. intros [= <-].
  simpl.
  apply app_eq_nil in Ee as [_ Ee]. apply app_eq_nil in Ee as [_ Ee].
  apply app_eq_nil in Ee as [-> ->].
  repeat split.
  - destruct (UpdateBody.title body); simpl in *; congruence.
  - destruct (UpdateBody.description body); simpl in *; congruence.
  - destruct (UpdateBody.status body) as [| |v|]; simpl in *; try congruence.
    destruct (TaskStatus_of_value v); congruence.
  - destruct (UpdateBody.due_date body); simpl in *; congruence.
Qed.

(** C3, as amended. For a task that exists in the table (fetching its id
    answers 200) and a partial-update body that passes validation, the
    answer is 200 with a record in which each of title, description and
    status has the value the body gives it when the body gives it a value,
    and its former value when the body leaves the field out or gives it as
    null; the due date is the one the body gives when that carries no UTC
    offset, and the former one when the body leaves it out or gives it as
    null (what becomes of a due date sent with an offset is not stated);
    [updated_at] is the server's clock reading, id and [created_at] are as
    before; the returned record is the one stored under that id afterwards,
    and every other id fetches what it fetched before. *)
Theorem update_changes_exactly_valued_fields
  (now : naive_datetime) (task_id : Z) (body : UpdateBody.t) (payload : TaskUpdate.t)
  (db : Db) (old : TaskOut.t) :
  get_task task_id db = (db, Reply HTTP_200_OK old) ->
  TaskUpdate_validate body = inr payload ->
  exists out db',
    PATCH_task now task_id body db = (db', Reply HTTP_200_OK out) /\
    updated_to (optional (UpdateBody.title body))
      (TaskOut.title old) (TaskOut.title out) /\
    updated_to (option_map Some (optional (UpdateBody.description body)))
      (TaskOut.description old) (TaskOut.description out) /\
    updated_to (status_of_field (UpdateBody.status body))
      (TaskOut.status old) (TaskOut.status out) /\
    due_date_updated_to (optional (UpdateBody.due_date body))
      (TaskOut.due_date old) (TaskOut.due_date out) /\
    TaskOut.updated_at out = naive now /\
    TaskOut.id out = task_id /\
    TaskOut.id out = TaskOut.id old /\
    TaskOut.created_at out = TaskOut.created_at old /\
    get_task task_id db' = (db', Reply HTTP_200_OK out) /\
    (forall k, k <> task_id -> db_get k db' = db_get k db) /\
    ids db' = ids db.
Proof.
  intros Hget Hval.
  destruct (TaskUpdate_validate_fields body payload Hval)
    as [Hti [Hde [Hst Hdu]]].
  destruct (update_task_spec now task_id payload db old Hget)
    as [out [db' [H1 [H2 [H3 [H4 [H5 H6]]]]]]].
  exists out, db'. unfold PATCH_task. rewrite Hval.
  rewrite <- Hti, <- Hde, <- Hst, <- Hdu.
  split; [exact H1|]. split; [exact H2|]. split; [exact H3|].
  split; [exact H4|]. split; [|exact H6].
  unfold due_date_updated_to.
  destruct (TaskUpdate.due_date payload) as [[f o]|]; simpl in *; [|exact H5].
  intros ->. exact H5.
Qed.

Lemma update_changes_exactly_valued_fields_witness :
  let db := [TaskDB.mk 1 "Task 1" (Some "d"%string) "pending" 42 7 7] in
  let old :=
    TaskOut.mk 1 "Task 1" (Some "d"%string) pending (naive 42) (naive 7)
      (naive 7) in
  exists out db',
    PATCH_task 9 1 (UpdateBody.mk Missing Missing (Value "completed"%string)
                      (Value (naive 50))) db
      = (db', Reply HTTP_200_OK out) /\
    TaskOut.status out = completed /\
    TaskOut.title out = TaskOut.title old /\
    TaskOut.due_date out = naive 50 /\
    TaskOut.updated_at out = naive 9.
Proof.
  intros db old.
  destruct (update_changes_exactly_valued_fields 9 1
              (UpdateBody.mk Missing Missing (Value "completed"%string)
                 (Value (naive 50)))
              (TaskUpdate.mk None None (Some completed) (Some (naive 50)))
              db old)
    as [out [db' [H1 [H2 [_ [H4 [H5 [H6 _]]]]]]]].
  - reflexivity.
  - reflexivity.
  - exists out, db'. simpl in H2, H4, H5.
    repeat split; try assumption. now apply H5.
Defined.

(** C3 as stated fails: a body that supplies [description] as null passes
    validation and is answered 200, yet the description of the task is not
    changed to the supplied null: it stays as it was. *)
Lemma update_supplied_null_not_applied :
  let db := [TaskDB.mk 1 "Task 1" (Some "d"%string) "pending" 42 7 7] in
  let body := UpdateBody.mk Missing Null Missing Missing in
  reachable db /\
  supplied (UpdateBody.description body) = Some None /\
  exists out db',
    PATCH_task 9 1 body db = (db', Reply HTTP_200_OK out) /\
    Some (TaskOut.description out) <> supplied (UpdateBody.description body).
Proof.
  intros db body. split; [|split; [reflexivity|]].
  - exists [(7, Create (TaskCreate.mk "Task 1" (Some "d"%string) (naive 42)
                         pending))].
    reflexivity.
  - do 2 eexists. split; [reflexivity|]. discriminate.
Qed.

Lemma update_task_reply (now : naive_datetime) (k : Z) (payload : TaskUpdate.t)
  (db db' : Db) (code : Z) (out : TaskOut.t) :
  update_task now k payload db = (db', Reply code out) ->
  exists task,
    db_get k db = Some task /\
    TaskOut.description out =
      match TaskUpdate.description payload with
      | Some d => Some d
      | None => TaskDB.description task
      end.
Proof.
  unfold update_task, reply_task, TaskOut_model_validate.
  destruct (Session_get_cases k db)
    as [[task [Hg ->]]|[[_ [_ ->]]|[_ [_ ->]]]]; try discriminate.
  simpl. destruct (TaskStatus_of_value _); [|discriminate].
  intros [= _ _ <-]. now exists task.
Qed.

(** C10. For a task that exists with a description, a valid partial update
    whose body gives [description] as null is answered 200 with the
    description as it was, and that record is the one stored afterwards; and
    whatever the body of the update, a 200 answer never carries a null
    description for such a task. *)
Theorem update_cannot_clear_description
  (now : naive_datetime) (task_id : Z) (db : Db) (old : TaskOut.t) (d : string) :
  get_task task_id db = (db, Reply HTTP_200_OK old) ->
  TaskOut.description old = Some d ->
  (forall body payload,
     UpdateBody.description body = Null ->
     TaskUpdate_validate body = inr payload ->
     exists out db',
       PATCH_task now task_id body db = (db', Reply HTTP_200_OK out) /\
       TaskOut.description out = Some d /\
       get_task task_id db' = (db', Reply HTTP_200_OK out)) /\
  (forall body out db' code,
     PATCH_task now task_id body db = (db', Reply code out) ->
     TaskOut.description out <> None).
Proof.
  intros Hget Hd. split.
  - intros body payload Hnull Hval.
    destruct (update_task_spec now task_id payload db old Hget)
      as [out [db' [Hu [_ [Hde [_ [_ [_ [_ [_ [_ [Hg _]]]]]]]]]]]].
    exists out, db'. unfold PATCH_task. rewrite Hval. split; [exact Hu|].
    split; [|exact Hg].
    rewrite (proj1 (proj2 (TaskUpdate_validate_fields _ _ Hval))), Hnull in Hde.
    simpl in Hde. congruence.
  - intros body out db' code. unfold PATCH_task.
    destruct (TaskUpdate_validate body) as [errs|payload]; [discriminate|].
    intros Hu. apply update_task_reply in Hu as [task [Hg Hde]].
    apply get_task_reply in Hget as [task0 [Hg0 [Hv _]]].
    rewrite Hg in Hg0. injection Hg0 as <-.
    unfold TaskOut_model_validate in Hv.
    destruct (TaskStatus_of_value _); [|discriminate].
    injection Hv as <-. simpl in Hd. rewrite Hde.
    destruct (TaskUpdate.description payload); congruence.
Qed.

Lemma update_cannot_clear_description_witness :
  let db := [TaskDB.mk 1 "Task 1" (Some "d"%string) "pending" 42 7 7] in
  exists out db',
    PATCH_task 9 1 (UpdateBody.mk Missing Null Missing Missing) db
      = (db', Reply HTTP_200_OK out) /\
    TaskOut.description out = Some "d"%string.
Proof.
  intros db.
  destruct (proj1 (update_cannot_clear_description 9 1 db
              (TaskOut.mk 1 "Task 1" (Some "d"%string) pending (naive 42)
                 (naive 7) (naive 7))
              "d"%string eq_refl eq_refl)
              (UpdateBody.mk Missing Null Missing Missing)
              (TaskUpdate.mk None None None None) eq_refl eq_refl)
    as [out [db' [H1 [H2 _]]]].
  exists out, db'. auto.
Defined.

Lemma db_get_delete (task : TaskDB.t) (db : Db) :
  db_get (TaskDB.id task) (db_delete task db) = None.
Proof.
  unfold db_get, db_delete.
  destruct (find _ (filter _ db)) as [r|] eqn:E; [|reflexivity].
  apply find_some in E as [Hin Hid]. apply filter_In in Hin as [_ Hn].
  rewrite Hid in Hn. discriminate.
Qed.

(** C6, as amended. For an id in the signed 64-bit range that is not in
    the table, fetching it, updating it with a body that passes validation
    (or, on the handler, with any validated payload) and deleting it each
    answer 404 and leave the table as it was; and once a delete of such an
    id has been answered 204, that id is not in the resulting table, so the
    same holds for it there. *)
Theorem absent_id_is_not_found :
  (forall (db : Db) (k : Z),
     ~ In k (ids db) ->
     int64 k = true ->
     get_task k db = (db, not_found) /\
     (forall now body payload,
        TaskUpdate_validate body = inr payload ->
        PATCH_task now k body db = (db, not_found)) /\
     (forall now payload, update_task now k payload db = (db, not_found)) /\
     delete_task k db = (db, not_found) /\
     status_code_of (@not_found unit) = 404) /\
  (forall (db db' : Db) (k : Z),
     delete_task k db = (db', Reply HTTP_204_NO_CONTENT tt) ->
     int64 k = true ->
     ~ In k (ids db') /\
     get_task k db' = (db', not_found)).
Proof.
  assert (Hs : forall db k, ~ In k (ids db) -> int64 k = true ->
                            Session_get k db = Returns None).
  { intros db k Hk Hr. apply db_get_None in Hk.
    now rewrite (Session_get_absent k db Hk), Hr. }
  assert (H404 : forall db k, ~ In k (ids db) -> int64 k = true ->
                              get_task k db = (db, not_found)).
  { intros db k Hk Hr. unfold get_task. now rewrite (Hs db k Hk Hr). }
  split.
  - intros db k Hk Hr. split; [now apply H404|].
    assert (Hu : forall now payload,
               update_task now k payload db = (db, not_found)).
    { intros now payload. unfold update_task. now rewrite (Hs db k Hk Hr). }
    split; [|split; [exact Hu|]].
    + intros now body payload Hv. unfold PATCH_task. rewrite Hv. apply Hu.
    + unfold delete_task. rewrite (Hs db k Hk Hr). split; reflexivity.
  - intros db db' k. unfold delete_task.
    destruct (Session_get_cases k db)
      as [[task [Hg ->]]|[[_ [_ ->]]|[_ [_ ->]]]]; try discriminate.
    intros [= <-] Hr. apply db_get_In in Hg as [_ <-].
    assert (Hk : ~ In (TaskDB.id task) (ids (db_delete task db))).
    { apply db_get_None. apply db_get_delete. }
    split; [exact Hk|now apply H404].
Qed.

Lemma absent_id_is_not_found_witness :
  let db := [TaskDB.mk 1 "Task 1" None "pending" 42 7 7] in
  get_task 5 db = (db, not_found) /\
  get_task 1 (fst (delete_task 1 db)) = (fst (delete_task 1 db), not_found).
Proof.
  intros db. split.
  - apply (proj1 absent_id_is_not_found db 5); [|reflexivity].
    vm_compute. intuition discriminate.
  - apply (proj2 absent_id_is_not_found db (fst (delete_task 1 db)) 1);
      reflexivity.
Defined.

(** C6 as stated fails: id 5 is not in the table, yet a partial update of it
    whose body has an empty title is answered with a validation error (422),
    not with 404. *)
Lemma absent_id_invalid_body_is_422 :
  let db := [TaskDB.mk 1 "Task 1" None "pending" 42 7 7] in
  let body := UpdateBody.mk (Value EmptyString) Missing Missing Missing in
  reachable db /\
  ~ In 5 (ids db) /\
  PATCH_task 9 5 body db = (db, ValidationError [loc_title]) /\
  status_code_of (snd (PATCH_task 9 5 body db)) = 422 /\
  status_code_of (snd (PATCH_task 9 5 body db)) <> 404.
Proof.
  intros db body. split; [|split; [|split; [|split]]].
  - exists [(7, Create (TaskCreate.mk "Task 1" None (naive 42) pending))].
    reflexivity.
  - simpl. intuition discriminate.
  - reflexivity.
  - reflexivity.
  - discriminate.
Qed.

(** ** Invariants of the tables the service can reach *)

Lemma unique_NoDup (l : list Z) : unique l = true <-> NoDup l.
Proof.
  induction l as [|x l IH]; simpl.
  - split; [constructor|reflexivity].
  - rewrite andb_true_iff, negb_true_iff, IH. split.
    + intros [Hx Hl]. constructor; [|assumption]. intros Hin.
      assert (He : existsb (Z.eqb x) l = true).
      { apply existsb_exists. exists x. split; [assumption|apply Z.eqb_refl]. }
      congruence.
    + intros Hnd. inversion Hnd as [|? ? Hx Hl]; subst. split; [|assumption].
      destruct (existsb (Z.eqb x) l) eqn:E; [|reflexivity].
      apply existsb_exists in E as [y [Hin Hy]]. apply Z.eqb_eq in Hy.
      subst y. contradiction.
Qed.

Lemma db_ok_iff (db : Db) :
  db_ok db = true <->
  (forall r, In r db -> valid_status r = true /\ 1 <= TaskDB.id r)
  /\ NoDup (ids db).
Proof.
  unfold db_ok. rewrite !andb_true_iff, unique_NoDup, !forallb_forall.
  unfold ids. split.
  - intros [[Hv Hp] Hn]. split; [|assumption]. intros r Hin.
    split; [now apply Hv|]. apply Z.leb_le. apply Hp. now apply in_map.
  - intros [H Hn]. split; [split|assumption].
    + intros r Hin. now apply H.
    + intros k Hin. apply in_map_iff in Hin as [r [<- Hin]].
      apply Z.leb_le. now apply H.
Qed.

Lemma NoDup_ids_filter (f : TaskDB.t -> bool) (db : Db) :
  NoDup (ids db) -> NoDup (ids (filter f db)).
Proof.
  unfold ids. induction db as [|x db IH]; simpl; [auto|].
  intros Hnd. inversion Hnd as [|? ? Hx Hl]; subst.
  destruct (f x); simpl; [|auto]. constructor; [|auto].
  rewrite in_map_iff in *. intros [r [Hid Hin]]. apply Hx.
  exists r. split; [assumption|]. now apply filter_In in Hin.
Qed.

Lemma create_task_db (now : naive_datetime) (payload : TaskCreate.t) (db : Db) :
  exists row,
    fst (create_task now payload db) = db ++ [row] /\
    TaskDB.id row = next_rowid db /\
    TaskDB.status row = TaskStatus_value (TaskCreate.status payload) /\
    TaskDB.created_at row = now /\ TaskDB.updated_at row = now.
Proof.
  destruct (create_task_spec now payload db) as [row [Hc H]].
  exists row. rewrite Hc. tauto.
Qed.

Lemma update_task_db (now : naive_datetime) (k : Z) (payload : TaskUpdate.t) (db : Db) :
  fst (update_task now k payload db) = db \/
  exists old new,
    db_get k db = Some old /\
    fst (update_task now k payload db) = db_update new db /\
    TaskDB.id new = TaskDB.id old /\
    TaskDB.created_at new = TaskDB.created_at old /\
    TaskDB.updated_at new = now /\
    (TaskDB.status new = TaskDB.status old
     \/ exists st, TaskDB.status new = TaskStatus_value st).
Proof.
  unfold update_task.
  destruct (Session_get_cases k db)
    as [[old [Hg ->]]|[[_ [_ ->]]|[_ [_ ->]]]]; [|now left|now left].
  right. exists old. eexists. split; [exact Hg|]. simpl.
  repeat split. destruct (TaskUpdate.status payload) as [st|]; [|now left].
  right. now exists st.
Qed.

Lemma delete_task_db (k : Z) (db : Db) :
  fst (delete_task k db) = filter (fun r => negb (has_id k r)) db.
Proof.
  assert (Habs : db_get k db = None -> db = filter (fun r => negb (has_id k r)) db).
  { intros Hg. apply db_get_None in Hg. symmetry. apply forallb_filter_id.
    apply forallb_forall. intros r Hin. apply negb_true_iff, has_id_false.
    intros <-. apply Hg. now apply in_map. }
  unfold delete_task.
  destruct (Session_get_cases k db)
    as [[task [Hg ->]]|[[Hg [_ ->]]|[Hg [_ ->]]]]; simpl; auto.
  apply db_get_In in Hg as [_ <-]. reflexivity.
Qed.

Lemma In_db_update (task r : TaskDB.t) (db : Db) :
  In r (db_update task db) -> r = task \/ In r db.
Proof.
  unfold db_update. rewrite in_map_iff. intros [x [Hx Hin]].
  destruct (has_id (TaskDB.id task) x); [left|right]; congruence.
Qed.

Lemma handle_db_ok (now : naive_datetime) (req : request) (db : Db) :
  db_ok db = true -> db_ok (handle now req db) = true.
Proof.
  rewrite !db_ok_iff. intros [Hrows Hnd]. destruct req as [p|k p|k]; unfold handle.
  - destruct (create_task_db now p db) as [row [-> [Hid [Hst _]]]]. split.
    + intros r Hin. apply in_app_or in Hin as [Hin|[<-|[]]]; [auto|].
      split.
      * unfold valid_status. now rewrite Hst, TaskStatus_of_value_value.
      * rewrite Hid. apply next_rowid_positive.
    + unfold ids. rewrite map_app. simpl. apply NoDup_app.
      * assumption.
      * constructor; [simpl; tauto|constructor].
      * intros a Hin [<-|[]]. rewrite Hid in Hin.
        now apply (next_rowid_fresh db).
  - destruct (update_task_db now k p db)
      as [->|[old [new [Hg [-> [Hid [_ [_ Hst]]]]]]]]; [auto|].
    apply db_get_In in Hg as [Hin _]. split.
    + intros r Hr. apply In_db_update in Hr as [->|Hr]; [|auto].
      destruct (Hrows old Hin) as [Hv Hp]. split; [|now rewrite Hid].
      unfold valid_status in *. destruct Hst as [->|[st ->]]; [assumption|].
      now rewrite TaskStatus_of_value_value.
    + now rewrite ids_db_update.
  - rewrite delete_task_db. split.
    + intros r Hin. apply filter_In in Hin as [Hin _]. auto.
    + now apply NoDup_ids_filter.
Qed.

Lemma run_app (e1 e2 : list (naive_datetime * request)) (db : Db) :
  run (e1 ++ e2) db = run e2 (run e1 db).
Proof. unfold run. apply fold_left_app. Qed.

Lemma run_db_ok (events : list (naive_datetime * request)) (db : Db) :
  db_ok db = true -> db_ok (run events db) = true.
Proof.
  revert db. induction events as [|[now req] events IH]; intros db Hok;
    [assumption|].
  simpl. apply IH. now apply handle_db_ok.
Qed.

Lemma reachable_db_ok (db : Db) : reachable db -> db_ok db = true.
Proof. intros [events <-]. now apply run_db_ok. Qed.

Lemma db_get_filter_other (k j : Z) (db : Db) :
  j <> k ->
  db_get k (filter (fun r => negb (has_id j r)) db) = db_get k db.
Proof.
  intros Hjk. unfold db_get. induction db as [|x db IH]; simpl; [reflexivity|].
  destruct (has_id j x) eqn:Ej; simpl.
  - apply has_id_true in Ej.
    assert (Hk : has_id k x = false) by (apply has_id_false; congruence).
    now rewrite Hk.
  - destruct (has_id k x); [reflexivity|exact IH].
Qed.

Lemma handle_keeps_row (now : naive_datetime) (req : request) (db : Db) (k : Z)
  (r : TaskDB.t) :
  db_get k db = Some r ->
  is_delete_of k req = false ->
  exists r',
    db_get k (handle now req db) = Some r' /\
    TaskDB.created_at r' = TaskDB.created_at r.
Proof.
  intros Hg Hnd. destruct req as [p|j p|j]; unfold handle.
  - destruct (create_task_db now p db) as [row [-> [Hid _]]].
    exists r. split; [|reflexivity]. rewrite db_get_app_old; [assumption|].
    apply db_get_In in Hg as [Hin <-]. apply ids_below_next_rowid in Hin. lia.
  - destruct (update_task_db now j p db)
      as [->|[old [new [Hgj [-> [Hid [Hc _]]]]]]]; [now exists r|].
    destruct (Z.eq_dec j k) as [->|Hjk].
    + exists new. rewrite Hgj in Hg. injection Hg as ->. split; [|assumption].
      apply db_get_In in Hgj as Hk. destruct Hk as [_ Hk].
      rewrite <- Hk at 1. rewrite <- Hid.
      apply (db_get_update_same new r). now rewrite Hid, Hk.
    + exists r. split; [|reflexivity]. rewrite db_get_update_other; [assumption|].
      apply db_get_In in Hgj as [_ Hj]. congruence.
  - rewrite delete_task_db. exists r. split; [|reflexivity].
    rewrite db_get_filter_other; [assumption|].
    simpl in Hnd. now apply Z.eqb_neq.
Qed.

Lemma run_keeps_row (events : list (naive_datetime * request)) (db : Db) (k : Z)
  (r : TaskDB.t) :
  db_get k db = Some r ->
  never_deletes k events = true ->
  exists r',
    db_get k (run events db) = Some r' /\
    TaskDB.id r' = TaskDB.id r /\
    TaskDB.created_at r' = TaskDB.created_at r.
Proof.
  revert db r. induction events as [|[now req] events IH]; intros db r Hg Hnd.
  - exists r. auto.
  - simpl in Hnd. apply andb_true_iff in Hnd as [Hreq Hnd].
    apply negb_true_iff in Hreq.
    destruct (handle_keeps_row now req db k r Hg Hreq) as [r1 [Hg1 Hc1]].
    destruct (IH _ _ Hg1 Hnd) as [r' [Hg' [Hid' Hc']]].
    exists r'. split; [exact Hg'|].
    apply db_get_In in Hg as [_ Hk]. apply db_get_In in Hg1 as [_ Hk1].
    split; congruence.
Qed.

Lemma handle_timestamps (now : naive_datetime) (req : request) (db : Db) (lo : Z) :
  (forall r, In r db ->
     TaskDB.created_at r <= TaskDB.updated_at r /\ TaskDB.created_at r <= lo) ->
  lo <= now ->
  forall r, In r (handle now req db) ->
    TaskDB.created_at r <= TaskDB.updated_at r /\ TaskDB.created_at r <= now.
Proof.
  intros Hdb Hlo r. destruct req as [p|k p|k]; unfold handle.
  - destruct (create_task_db now p db) as [row [-> [_ [_ [Hc Hu]]]]].
    intros Hin. apply in_app_or in Hin as [Hin|[<-|[]]].
    + specialize (Hdb r Hin). lia.
    + lia.
  - destruct (update_task_db now k p db)
      as [->|[old [new [Hg [-> [_ [Hc [Hu _]]]]]]]].
    + intros Hin. specialize (Hdb r Hin). lia.
    + intros Hin. apply In_db_update in Hin as [->|Hin].
      * apply db_get_In in Hg as [Hold _]. specialize (Hdb old Hold). lia.
      * specialize (Hdb r Hin). lia.
  - rewrite delete_task_db. intros Hin. apply filter_In in Hin as [Hin _].
    specialize (Hdb r Hin). lia.
Qed.

Lemma run_timestamps (events : list (naive_datetime * request)) (db : Db) (lo : Z) :
  (forall r, In r db ->
     TaskDB.created_at r <= TaskDB.updated_at r /\ TaskDB.created_at r <= lo) ->
  nondecreasing lo (map fst events) = true ->
  forall r, In r (run events db) -> TaskDB.created_at r <= TaskDB.updated_at r.
Proof.
  revert db lo. induction events as [|[now req] events IH]; intros db lo Hdb Hmono.
  - intros r Hin. now apply Hdb.
  - simpl in Hmono. apply andb_true_iff in Hmono as [Hlo Hmono].
    apply Z.leb_le in Hlo. simpl. apply (IH _ now); [|assumption].
    now apply (handle_timestamps now req db lo).
Qed.

(** C7, as amended. In every table reached from the empty one by create,
    update and delete requests: each stored status is one of pending,
    in_progress, completed; a task found under an id is still found under
    that id, with the same id and the same [created_at], after any further
    requests none of which deletes that id; and when the clock readings seen
    by the requests never go back, every task has [updated_at] at or after
    [created_at]. *)
Theorem reachable_table_invariants (events : list (naive_datetime * request)) :
  let db := run events [] in
  (forall r, In r db ->
     In (TaskDB.status r) ["pending"; "in_progress"; "completed"]%string) /\
  (forall k r later,
     db_get k db = Some r ->
     never_deletes k later = true ->
     exists r',
       db_get k (run (events ++ later) []) = Some r' /\
       TaskDB.id r' = TaskDB.id r /\
       TaskDB.created_at r' = TaskDB.created_at r) /\
  (clock_monotone (map fst events) = true ->
   forall r, In r db -> TaskDB.created_at r <= TaskDB.updated_at r).
Proof.
  intros db. split; [|split].
  - intros r Hin.
    assert (Hok : db_ok db = true) by (apply reachable_db_ok; now exists events).
    destruct (db_ok_valid_status db r Hok Hin) as [st ->].
    destruct st; simpl; auto.
  - intros k r later Hg Hnd. rewrite run_app. now apply run_keeps_row.
  - intros Hmono. subst db. destruct events as [|[now req] events].
    + intros r [].
    + apply (run_timestamps _ [] now); [intros r []|].
      simpl in *. now rewrite Z.leb_refl.
Qed.

Lemma reachable_table_invariants_witness :
  let events :=
    [(10, Create (TaskCreate.mk "Task 1" None (naive 42) pending));
     (12, Update 1 (TaskUpdate.mk None None (Some completed) None))] in
  (forall r, In r (run events []) ->
     TaskDB.created_at r <= TaskDB.updated_at r) /\
  (exists r',
     db_get 1 (run (events ++ [(13, Delete 2)]) []) = Some r' /\
     TaskDB.created_at r' = 10).
Proof.
  intros events.
  destruct (reachable_table_invariants events) as [_ [Hkeep Hts]]. split.
  - apply Hts. reflexivity.
  - destruct (Hkeep 1 (TaskDB.mk 1 "Task 1" None "completed" 42 10 12)
                [(13, Delete 2)] eq_refl eq_refl) as [r' [Hg [_ Hc]]].
    exists r'. auto.
Defined.

(** C7 as stated fails: a create served at clock reading 10 followed by an
    update of the same task served at clock reading 5 leaves a task whose
    [updated_at] is before its [created_at]. *)
Lemma updated_at_before_created_at :
  let events :=
    [(10, Create (TaskCreate.mk "Task 1" None (naive 42) pending));
     (5, Update 1 (TaskUpdate.mk None None (Some completed) None))] in
  reachable (run events []) /\
  exists r,
    In r (run events []) /\
    ~ TaskDB.created_at r <= TaskDB.updated_at r.
Proof.
  intros events. split; [now exists events|].
  exists (TaskDB.mk 1 "Task 1" None "completed" 42 10 5).
  split; [left; reflexivity|]. simpl. lia.
Qed.

(** ** Sorting *)

Section SortFacts.
Context {A : Type} (leb : A -> A -> bool).
Hypothesis leb_total : forall a b, leb a b = true \/ leb b a = true.
Hypothesis leb_trans :
  forall a b c, leb a b = true -> leb b c = true -> leb a c = true.

Lemma insert_sorted_perm (x : A) (l : list A) :
  Permutation (insert_sorted leb x l) (x :: l).
Proof.
  induction l as [|y l IH]; simpl; [reflexivity|].
  destruct (leb x y); [reflexivity|].
  rewrite IH. apply perm_swap.
Qed.

Lemma sort_by_perm (l : list A) : Permutation (sort_by leb l) l.
Proof.
  induction l as [|x l IH]; simpl; [reflexivity|].
  unfold sort_by in IH. rewrite insert_sorted_perm. now constructor.
Qed.


End SortFacts.






(** ** The statement built by [list_tasks] *)

Lemma satisfies_app (c1 c2 : list (TaskDB.t -> bool)) (r : TaskDB.t) :
  satisfies (c1 ++ c2) r = satisfies c1 r && satisfies c2 r.
Proof. unfold satisfies. apply forallb_app. Qed.

Lemma list_stmt_shape (sf : option (list TaskStatus)) (q : option string)
  (task_id : option Z) (o : ordering) :
  order_by_clause (list_stmt sf q task_id o) = Some o /\
  limit_clause (list_stmt sf q task_id o) = None /\
  offset_clause (list_stmt sf q task_id o) = None /\
  (forall db,
     forallb (binds db) (key_parameters (list_stmt sf q task_id o))
     = key_binds db task_id) /\
  forall r,
    satisfies (whereclause (list_stmt sf q task_id o)) r
    = task_matches sf q task_id r.
Proof.
  assert (Htruthy : truthy EmptyString = false) by reflexivity.
  unfold list_stmt, task_matches.
  repeat split; intros;
    destruct sf as [[|s sf]|], task_id as [k|], q as [q|];
    try (destruct (truthy q) eqn:Eq;
         [|assert (Hq : q = EmptyString)
             by (unfold truthy in Eq; apply negb_false_iff in Eq;
                 now apply String.eqb_eq in Eq);
           subst q; change (strip EmptyString) with EmptyString;
           rewrite ?Htruthy]);
    try destruct (truthy (strip _));
    cbv [where_ where_id order_by select_TaskDB whereclause order_by_clause
           limit_clause offset_clause key_parameters key_binds satisfies
           forallb app];
    rewrite ?andb_true_r, ?andb_true_l, ?andb_assoc; reflexivity.
Qed.


Lemma model_validate_all_Forall2 (rows : list TaskDB.t) (items : list TaskOut.t) :
  model_validate_all rows = Some items ->
  Forall2 (fun r o => TaskOut_model_validate r = Some o) rows items.
Proof.
  revert items. induction rows as [|r rows IH]; simpl; intros items.
  - intros [= <-]. constructor.
  - destruct (TaskOut_model_validate r) as [o|] eqn:Er; [|discriminate].
    destruct (model_validate_all rows) as [os|]; [|discriminate].
    intros [= <-]. constructor; auto.
Qed.

Lemma model_validate_all_total (rows : list TaskDB.t) :
  (forall r, In r rows -> exists o, TaskOut_model_validate r = Some o) ->
  exists items, model_validate_all rows = Some items.
Proof.
  induction rows as [|r rows IH]; simpl; intros H.
  - now exists [].
  - destruct (H r (or_introl eq_refl)) as [o ->].
    destruct IH as [os ->]; [intros; apply H; now right|].
    now exists (o :: os).
Qed.

Lemma In_window {A} (limit offset : Z) (l : list A) (x : A) :
  In x (window limit offset l) -> In x l.
Proof.
  unfold window. intros H.
  rewrite <- (firstn_skipn (Z.to_nat offset) l). apply in_or_app. right.
  rewrite <- (firstn_skipn (Z.to_nat limit) (skipn _ l)).
  apply in_or_app. now left.
Qed.

Lemma length_window {A} (limit offset : Z) (l : list A) :
  List.length (window limit offset l)
  = Nat.min (Z.to_nat limit) (length l - Z.to_nat offset).
Proof. unfold window. now rewrite length_firstn, length_skipn. Qed.

Lemma selected_list_stmt (sf : option (list TaskStatus)) (q : option string)
  (task_id : option Z) (o : ordering) (db : Db) :
  selected (list_stmt sf q task_id o) db
  = sort_by (ordering_leb o) (filter (task_matches sf q task_id) db).
Proof.
  destruct (list_stmt_shape sf q task_id o) as [Ho [Hl [Hf [_ Hw]]]].
  unfold selected. rewrite Ho, Hl, Hf. f_equal. now apply filter_ext.
Qed.

Lemma execute_list_stmt (sf : option (list TaskStatus)) (q : option string)
  (task_id : option Z) (o : ordering) (db : Db) :
  execute (list_stmt sf q task_id o) db
  = if key_binds db task_id
    then Returns
           (sort_by (ordering_leb o) (filter (task_matches sf q task_id) db))
    else Raises.
Proof.
  destruct (list_stmt_shape sf q task_id o) as [Ho [Hl [Hf [Hk Hw]]]].
  unfold execute, bindable. rewrite Hk, Hl, Hf, selected_list_stmt. simpl.
  now rewrite !andb_true_r.
Qed.

Lemma selected_page (sf : option (list TaskStatus)) (q : option string)
  (task_id : option Z) (o : ordering) (limit offset : Z) (db : Db) :
  0 <= limit ->
  selected (offset_ (limit_ (list_stmt sf q task_id o) limit) offset) db
  = window limit offset
      (sort_by (ordering_leb o) (filter (task_matches sf q task_id) db)).
Proof.
  intros Hlim.
  destruct (list_stmt_shape sf q task_id o) as [Ho [Hl [Hf [_ Hw]]]].
  unfold selected, window. cbn [offset_ limit_ whereclause order_by_clause
                                  limit_clause offset_clause].
  rewrite Ho. destruct (Z.ltb_spec limit 0) as [Hn|_]; [lia|].
  do 3 f_equal. now apply filter_ext.
Qed.

Lemma execute_page (sf : option (list TaskStatus)) (q : option string)
  (task_id : option Z) (o : ordering) (limit offset : Z) (db : Db) :
  execute (offset_ (limit_ (list_stmt sf q task_id o) limit) offset) db
  = if key_binds db task_id && int64 limit && int64 offset
    then Returns
           (selected (offset_ (limit_ (list_stmt sf q task_id o) limit) offset)
              db)
    else Raises.
Proof.
  destruct (list_stmt_shape sf q task_id o) as [Ho [Hl [Hf [Hk Hw]]]].
  unfold execute, bindable.
  cbn [offset_ limit_ key_parameters limit_clause offset_clause
         int64_if_given].
  now rewrite Hk.
Qed.

Lemma list_tasks_spec (sf : option (list TaskStatus)) (q : option string)
  (task_id : option Z) (limit offset : Z) (sort order : string) (db : Db)
  (col : TaskDB.t -> Z) :
  db_ok db = true ->
  getattr_TaskDB sort = Some col ->
  key_binds db task_id = true ->
  0 <= limit ->
  int64 limit = true ->
  int64 offset = true ->
  let matching := filter (task_matches sf q task_id) db in
  let sorted := sort_by (ordering_leb (direction order col)) matching in
  exists items,
    list_tasks sf q task_id limit offset sort order db
    = (db, Reply HTTP_200_OK
             (TaskListOut.mk (Z.of_nat (length matching)) items)) /\
    model_validate_all (window limit offset sorted) = Some items.
Proof.
  intros Hok Hcol Hk Hlim Hl64 Ho64 matching sorted. unfold list_tasks.
  rewrite Hcol.
  rewrite execute_page, Hk, Hl64, Ho64, selected_page by exact Hlim.
  fold matching sorted.
  unfold count_subquery. rewrite execute_list_stmt, Hk. fold matching sorted.
  cbn [andb].
  assert (Hperm : Permutation sorted matching) by apply sort_by_perm.
  destruct (model_validate_all_total (window limit offset sorted))
    as [items Hitems].
  { intros r Hr. apply In_window in Hr.
    apply (Permutation_in _ Hperm) in Hr. apply filter_In in Hr as [Hr _].
    now apply (model_validate_total db). }
  exists items. rewrite Hitems, (Permutation_length Hperm). auto.
Qed.

Lemma parse_statuses_total (l : list string) :
  forallb (fun s => match TaskStatus_of_value s with
                    | Some _ => true
                    | None => false
                    end) l = true ->
  exists sts, parse_statuses l = Some sts /\ length sts = length l.
Proof.
  induction l as [|s l IH]; simpl; [now exists []|].
  destruct (TaskStatus_of_value s) as [st|]; [|discriminate]. simpl.
  intros H. destruct (IH H) as [sts [-> Hlen]].
  exists (st :: sts). simpl. auto.
Qed.

Lemma GET_tasks_valid (query : ListQuery.t) (db : Db) :
  valid_query query = true ->
  exists sf,
    GET_tasks query db
    = list_tasks sf (ListQuery.q query) (ListQuery.id query)
        (default (ListQuery.limit query) 20)
        (default (ListQuery.offset query) 0)
        (default (ListQuery.sort query) "due_date"%string)
        (default (ListQuery.order query) "asc"%string) db /\
    (ListQuery.status query = [] -> sf = None) /\
    sort_pattern (default (ListQuery.sort query) "due_date"%string) = true /\
    1 <= default (ListQuery.limit query) 20 <= 100 /\
    0 <= default (ListQuery.offset query) 0.
Proof.
  unfold valid_query. rewrite !andb_true_iff.
  intros [[[[[[Hst Hid] Hl1] Hl2] Hoff] Hsort] Hord].
  unfold GET_tasks. rewrite Hl1, Hl2, Hoff, Hsort, Hord.
  assert (Hidc : check loc_id match ListQuery.id query with
                              | Some k => 1 <=? k
                              | None => true
                              end = []) by now rewrite Hid.
  rewrite Hidc. apply Z.leb_le in Hl1, Hl2, Hoff.
  destruct (ListQuery.status query) as [|s l] eqn:Es.
  - exists None. simpl. repeat split; auto.
  - destruct (parse_statuses_total _ Hst) as [sts [-> _]].
    exists (Some sts). simpl. repeat split; auto. discriminate.
Qed.

Lemma sort_columns (sort : string) :
  sort_pattern sort = true ->
  exists col col',
    getattr_TaskDB sort = Some col /\
    TaskOut_column sort = Some col' /\
    forall r o, TaskOut_model_validate r = Some o -> col' o = col r.
Proof.
  unfold sort_pattern, getattr_TaskDB, TaskOut_column, TaskOut_model_validate.
  destruct (String.eqb sort "id");
    [|destruct (String.eqb sort "due_date");
      [|destruct (String.eqb sort "created_at");
        [|destruct (String.eqb sort "updated_at"); [|discriminate]]]];
    intros _; do 2 eexists; (split; [reflexivity|split; [reflexivity|]]);
    intros r o; destruct (TaskStatus_of_value _); try discriminate;
    now intros [= <-].
Qed.



Lemma task_matches_none (r : TaskDB.t) : task_matches None None None r = true.
Proof. reflexivity. Qed.

Lemma filter_all {A} (f : A -> bool) (l : list A) :
  (forall x, f x = true) -> filter f l = l.
Proof.
  intros H. apply forallb_filter_id. apply forallb_forall. auto.
Qed.

Lemma int64_between (n : Z) : - 2 ^ 63 <= n < 2 ^ 63 -> int64 n = true.
Proof.
  intros [H1 H2]. unfold int64. apply andb_true_iff. split.
  - now apply Z.leb_le.
  - now apply Z.ltb_lt.
Qed.

Lemma int64_limit (n : Z) : 1 <= n <= 100 -> int64 n = true.
Proof. intros H. apply int64_between. cbn. lia. Qed.

Lemma list_tasks_page (sf : option (list TaskStatus)) (q : option string)
  (task_id : option Z) (sort order : string) (db : Db) :
  db_ok db = true ->
  sort_pattern sort = true ->
  key_binds db task_id = true ->
  let matching := filter (task_matches sf q task_id) db in
  exists sorted,
    Permutation sorted matching /\
    forall limit offset : Z,
      0 <= limit ->
      int64 limit = true ->
      int64 offset = true ->
      exists items,
        list_tasks sf q task_id limit offset sort order db
        = (db, Reply HTTP_200_OK
                 (TaskListOut.mk (Z.of_nat (length matching)) items)) /\
        model_validate_all (window limit offset sorted) = Some items /\
        length items
        = Nat.min (Z.to_nat limit) (length matching - Z.to_nat offset).
Proof.
  intros Hok Hsort Hk matching.
  destruct (sort_columns sort Hsort) as [col [_ [Hcol _]]].
  exists (sort_by (ordering_leb (direction order col)) matching).
  split; [apply sort_by_perm|].
  intros limit offset Hlim Hl64 Ho64.
  destruct (list_tasks_spec sf q task_id limit offset sort order db col
              Hok Hcol Hk Hlim Hl64 Ho64) as [items [Hl Hitems]].
  fold matching in Hl, Hitems.
  exists items. split; [exact Hl|]. split; [exact Hitems|].
  apply model_validate_all_Forall2, Forall2_length in Hitems.
  rewrite <- Hitems, length_window.
  now rewrite (Permutation_length (sort_by_perm _ matching)).
Qed.

Lemma Forall2_In_right {A B} (rel : A -> B -> Prop) (l1 : list A)
  (l2 : list B) (b : B) :
  Forall2 rel l1 l2 -> In b l2 -> exists a, In a l1 /\ rel a b.
Proof.
  induction 1 as [|x y l1 l2 Hxy Hl IH]; simpl; [tauto|].
  intros [<-|Hin].
  - exists x. auto.
  - destruct (IH Hin) as [a [Ha Hr]]. exists a. auto.
Qed.







Lemma filter_has_id_unique (k : Z) (db : Db) (task : TaskDB.t) :
  NoDup (ids db) ->
  db_get k db = Some task ->
  filter (has_id k) db = [task].
Proof.
  unfold db_get, ids. induction db as [|x db IH]; simpl; [discriminate|].
  intros Hnd. inversion Hnd as [|? ? Hx Hdb]; subst.
  destruct (has_id k x) eqn:E.
  - intros [= ->]. f_equal. apply has_id_true in E.
    destruct (filter (has_id k) db) as [|y l] eqn:Ef; [reflexivity|].
    assert (Hy : In y (filter (has_id k) db)) by (rewrite Ef; now left).
    apply filter_In in Hy as [Hy Hk]. apply has_id_true in Hk.
    exfalso. apply Hx. rewrite E, <- Hk. now apply in_map.
  - auto.
Qed.

(** C8. For a well-formed table and an id N that is in it, a list request
    whose only filter is id=N, with no offset and with any admitted limit,
    sort column and order, answers 200 with total 1 and exactly one item,
    the record with id N that fetching N returns. *)
Theorem list_by_id_returns_that_task
  (db : Db) (k : Z) (limit : option Z) (sort order : option string) :
  db_ok db = true ->
  In k (ids db) ->
  valid_query (ListQuery.mk [] None None limit None sort order) = true ->
  exists out,
    GET_tasks (ListQuery.mk [] None (Some k) limit None sort order) db
    = (db, Reply HTTP_200_OK (TaskListOut.mk 1 [out])) /\
    TaskOut.id out = k /\
    get_task k db = (db, Reply HTTP_200_OK out).
Proof.
  intros Hok Hin Hq0.
  assert (Hq : valid_query (ListQuery.mk [] None (Some k) limit None sort order)
               = true).
  { assert (Hk : (1 <=? k) = true).
    { apply db_ok_iff in Hok as [Hrows _].
      unfold ids in Hin. apply in_map_iff in Hin as [r [<- Hr]].
      apply Z.leb_le. now apply Hrows. }
    unfold valid_query in *.
    cbn [ListQuery.status ListQuery.id ListQuery.limit ListQuery.offset
           ListQuery.sort ListQuery.order forallb] in *.
    now rewrite Hk. }
  destruct (db_get k db) as [task|] eqn:Hg;
    [|apply db_get_None in Hg; contradiction].
  destruct (GET_tasks_valid _ db Hq) as [sf [-> [Hsf [Hsort [Hlim _]]]]].
  rewrite (Hsf eq_refl). simpl in *.
  destruct (sort_columns _ Hsort) as [col [_ [Hcol _]]].
  destruct (list_tasks_spec None None (Some k) (default limit 20) 0
              (default sort "due_date"%string) (default order "asc"%string)
              db col Hok Hcol) as [items [Hl Hitems]].
  { exact (binds_stored k db task Hg). }
  { lia. }
  { now apply int64_limit. }
  { reflexivity. }
  assert (Hf : filter (task_matches None None (Some k)) db = [task]).
  { rewrite <- (filter_has_id_unique k db task); [|now apply db_ok_iff|exact Hg].
    apply filter_ext. intros r. unfold task_matches. simpl.
    now rewrite andb_true_r. }
  rewrite Hf in Hl, Hitems. simpl in Hl, Hitems.
  unfold window in Hitems. simpl in Hitems.
  destruct (Z.to_nat (default limit 20)) as [|n] eqn:En; [lia|].
  simpl in Hitems. rewrite firstn_nil in Hitems.
  destruct (TaskOut_model_validate task) as [out|] eqn:Ev; [|discriminate].
  injection Hitems as <-. exists out. split; [exact Hl|].
  apply db_get_In in Hg as Hk. destruct Hk as [_ Hk]. split.
  - unfold TaskOut_model_validate in Ev.
    destruct (TaskStatus_of_value _); [|discriminate].
    injection Ev as <-. exact Hk.
  - rewrite (get_task_found _ _ _ Hg). unfold reply_task. now rewrite Ev.
Qed.

Lemma list_by_id_returns_that_task_witness :
  let db := [TaskDB.mk 1 "Task 1" None "pending" 43 7 7;
             TaskDB.mk 2 "Task 2" None "pending" 42 8 8;
             TaskDB.mk 3 "Task 3" None "completed" 41 9 9] in
  exists out,
    GET_tasks (ListQuery.mk [] None (Some 2) None None None None) db
    = (db, Reply HTTP_200_OK (TaskListOut.mk 1 [out])) /\
    TaskOut.id out = 2.
Proof.
  intros db.
  destruct (list_by_id_returns_that_task db 2 None None None)
    as [out [H1 [H2 _]]].
  - reflexivity.
  - simpl. auto.
  - reflexivity.
  - exists out. auto.
Defined.

(** ** The title search *)

Lemma chars_append (s1 s2 : string) :
  chars (s1 ++ s2) = chars s1 ++ chars s2.
Proof.
  unfold chars. induction s1 as [|c s1 IH]; simpl; [reflexivity|].
  now rewrite IH.
Qed.










Lemma lower_pattern_of (search : string) :
  lower (chars (pattern_of search))
  = "%"%char :: lower (chars search) ++ ["%"%char].
Proof.
  unfold pattern_of. change (chars (String "%" ?s)) with ("%"%char :: chars s).
  rewrite chars_append. unfold lower. now rewrite map_cons, map_app.
Qed.













(** * Further properties of the handlers *)

(** ** Validation of update bodies and of list parameters *)

Lemma update_task_never_422 (now : naive_datetime) (k : Z) (payload : TaskUpdate.t)
  (db : Db) (errs : list loc) :
  snd (update_task now k payload db) <> ValidationError errs.
Proof.
  unfold update_task, reply_task.
  destruct (Session_get k db) as [|[t|]]; simpl;
    [|destruct (TaskOut_model_validate _)|]; discriminate.
Qed.

Lemma TaskUpdate_validate_errors (body : UpdateBody.t) :
  match TaskUpdate_validate body with
  | inl errs =>
      errs =
        fst (optional_str loc_title 1 200 (UpdateBody.title body))
        ++ fst (optional_str loc_description 0 10000
                  (UpdateBody.description body))
        ++ fst (status_optional (UpdateBody.status body))
        ++ fst (optional_field loc_due_date (UpdateBody.due_date body))
      /\ errs <> []
  | inr _ =>
      fst (optional_str loc_title 1 200 (UpdateBody.title body)) = []
      /\ fst (optional_str loc_description 0 10000
                (UpdateBody.description body)) = []
      /\ fst (status_optional (UpdateBody.status body)) = []
      /\ fst (optional_field loc_due_date (UpdateBody.due_date body)) = []
  end.
Proof.
  unfold TaskUpdate_validate.
  destruct (optional_str loc_title 1 200 _) as [e1 ti].
  destruct (optional_str loc_description 0 10000 _) as [e2 de].
  destruct (status_optional _) as [e3 st].
  destruct (optional_field loc_due_date _) as [e4 du]. simpl.
  destruct (e1 ++ e2 ++ e3 ++ e4) as [|e errs] eqn:E.
  - apply app_eq_nil in E as [-> E]. apply app_eq_nil in E as [-> E].
    apply app_eq_nil in E as [-> ->]. auto.
  - split; [reflexivity|discriminate].
Qed.

Lemma optional_str_nil (l : loc) (lo hi : Z) (f : field string) :
  fst (optional_str l lo hi f) = [] <->
  f <> Invalid /\ forall s, f = Value s -> lo <= str_len s <= hi.
Proof.
  destruct f as [| |s|]; simpl.
  - split; [intros _; split; discriminate|reflexivity].
  - split; [intros _; split; discriminate|reflexivity].
  - rewrite check_length_nil. split.
    + intros H. split; [discriminate|]. intros s' [= <-]. exact H.
    + intros [_ H]. now apply H.
  - split; [discriminate|]. intros [H _]. congruence.
Qed.

Lemma status_optional_nil (f : field string) :
  fst (status_optional f) = [] <-> f <> Invalid /\ ~ status_unknown f.
Proof.
  unfold status_unknown. destruct f as [| |s|]; simpl.
  - split; [intros _; split; [|intros [s [Hs _]]]; discriminate|reflexivity].
  - split; [intros _; split; [|intros [s [Hs _]]]; discriminate|reflexivity].
  - destruct (TaskStatus_of_value s) eqn:E; simpl; split.
    + intros _. split; [discriminate|]. intros [s' [[= <-] H]]. congruence.
    + reflexivity.
    + discriminate.
    + intros [_ H]. exfalso. apply H. now exists s.
  - split; [discriminate|]. intros [H _]. congruence.
Qed.

Lemma optional_field_nil {A} (l : loc) (f : field A) :
  fst (optional_field l f) = [] <-> f <> Invalid.
Proof.
  destruct f; simpl; split; try discriminate; try reflexivity; congruence.
Qed.

Lemma title_error_outside (f : field string) :
  fst (optional_str loc_title 1 200 f) <> [] ->
  title_outside_limits f \/ malformed f.
Proof.
  destruct f as [| |s|]; simpl; try congruence; [|now right].
  intros Hne. left. exists s. split; [reflexivity|].
  assert (~ 1 <= str_len s <= 200)
    by (intros Hc; apply (check_length_nil loc_title) in Hc; congruence).
  pose proof (str_len_nonneg s). lia.
Qed.

Lemma description_error_outside (f : field string) :
  fst (optional_str loc_description 0 10000 f) <> [] ->
  description_outside_limits f \/ malformed f.
Proof.
  destruct f as [| |d|]; simpl; try congruence; [|now right].
  intros Hne. left. exists d. split; [reflexivity|].
  assert (~ 0 <= str_len d <= 10000)
    by (intros Hc; apply (check_length_nil loc_description) in Hc; congruence).
  pose proof (str_len_nonneg d). lia.
Qed.

Lemma status_error_unknown (f : field string) :
  fst (status_optional f) <> [] -> status_unknown f \/ malformed f.
Proof.
  destruct f as [| |s|]; simpl; try congruence; [|now right].
  destruct (TaskStatus_of_value s) eqn:E; simpl; [congruence|].
  intros _. left. now exists s.
Qed.

(** X1. A partial update is answered with a validation error exactly when
    its body gives a title that is empty or longer than 200 characters, a
    description longer than 10,000 characters, or a status that is not a
    value of the enum, or gives for the title, the description, the status
    or the due date something that is not of the field's type (a due date
    that does not parse, say); this is decided before the task is looked up,
    so it does not depend on the id or on the table, and the table is left
    as it was. *)
Theorem patch_validation_error_iff
  (now : naive_datetime) (task_id : Z) (body : UpdateBody.t) (db : Db) :
  ((exists errs, PATCH_task now task_id body db = (db, ValidationError errs))
   <->
   (title_outside_limits (UpdateBody.title body)
    \/ description_outside_limits (UpdateBody.description body)
    \/ status_unknown (UpdateBody.status body)
    \/ malformed (UpdateBody.title body)
    \/ malformed (UpdateBody.description body)
    \/ malformed (UpdateBody.status body)
    \/ malformed (UpdateBody.due_date body)))
  /\
  (forall errs db',
     PATCH_task now task_id body db = (db', ValidationError errs) -> db' = db).
Proof.
  assert (Hinvalid :
    (exists errs, TaskUpdate_validate body = inl errs) <->
    (title_outside_limits (UpdateBody.title body)
     \/ description_outside_limits (UpdateBody.description body)
     \/ status_unknown (UpdateBody.status body)
     \/ malformed (UpdateBody.title body)
     \/ malformed (UpdateBody.description body)
     \/ malformed (UpdateBody.status body)
     \/ malformed (UpdateBody.due_date body))).
  { pose proof (TaskUpdate_validate_errors body) as H.
    pose proof (optional_str_nil loc_title 1 200 (UpdateBody.title body)) as Ht.
    pose proof (optional_str_nil loc_description 0 10000
                  (UpdateBody.description body)) as Hd.
    pose proof (status_optional_nil (UpdateBody.status body)) as Hs.
    pose proof (optional_field_nil loc_due_date (UpdateBody.due_date body))
      as Hu.
    unfold title_outside_limits, description_outside_limits, malformed.
    destruct (TaskUpdate_validate body) as [errs|payload].
    - split; [intros _|intros _; now exists errs].
      destruct H as [-> Hne].
      destruct (fst (optional_str loc_title 1 200 (UpdateBody.title body)))
        eqn:E1.
      2:{ destruct (title_error_outside (UpdateBody.title body)) as [Hx|Hx];
            [congruence|left; exact Hx|do 3 right; left; exact Hx]. }
      destruct (fst (optional_str loc_description 0 10000
                       (UpdateBody.description body))) eqn:E2.
      2:{ destruct (description_error_outside (UpdateBody.description body))
            as [Hx|Hx];
            [congruence|right; left; exact Hx|do 4 right; left; exact Hx]. }
      destruct (fst (status_optional (UpdateBody.status body))) eqn:E3.
      2:{ destruct (status_error_unknown (UpdateBody.status body)) as [Hx|Hx];
            [congruence|do 2 right; left; exact Hx
            |do 5 right; left; exact Hx]. }
      do 6 right. simpl in Hne.
      destruct (UpdateBody.due_date body); simpl in Hne; congruence.
    - destruct H as [H1 [H2 [H3 H4]]]. split; [intros [errs [=]]|].
      apply Ht in H1 as [H1a H1b]. apply Hd in H2 as [H2a H2b].
      apply Hs in H3 as [H3a H3b]. apply Hu in H4.
      intros [[s [Hsv Hl]]|[[d [Hdv Hl]]|[Hx|[Hx|[Hx|[Hx|Hx]]]]]]; exfalso;
        try congruence; try exact (H3b Hx);
        [pose proof (H1b s Hsv); lia|pose proof (H2b d Hdv); lia]. }
  rewrite <- Hinvalid. unfold PATCH_task. split; [split|].
  - intros [errs H].
    destruct (TaskUpdate_validate body) as [errs'|payload]; [now exists errs'|].
    exfalso. apply (update_task_never_422 now task_id payload db errs).
    now rewrite H.
  - intros [errs ->]. now exists errs.
  - intros errs db'.
    destruct (TaskUpdate_validate body) as [errs'|payload]; [now intros [= <-]|].
    intros H. exfalso.
    apply (update_task_never_422 now task_id payload db errs). now rewrite H.
Qed.

Lemma patch_validation_error_iff_witness :
  (exists errs,
     PATCH_task 9 999 (UpdateBody.mk (Value EmptyString) Missing Missing Missing)
       [TaskDB.mk 1 "Task 1" None "pending" 42 7 7]
     = ([TaskDB.mk 1 "Task 1" None "pending" 42 7 7], ValidationError errs)) /\
  (exists errs,
     PATCH_task 9 1 (UpdateBody.mk Missing Missing Missing Invalid)
       [TaskDB.mk 1 "Task 1" None "pending" 42 7 7]
     = ([TaskDB.mk 1 "Task 1" None "pending" 42 7 7], ValidationError errs)).
Proof.
  split.
  - apply (proj1 (patch_validation_error_iff 9 999
                    (UpdateBody.mk (Value EmptyString) Missing Missing Missing)
                    [TaskDB.mk 1 "Task 1" None "pending" 42 7 7])).
    left. exists EmptyString. split; [reflexivity|]. left. reflexivity.
  - apply (proj1 (patch_validation_error_iff 9 1
                    (UpdateBody.mk Missing Missing Missing Invalid)
                    [TaskDB.mk 1 "Task 1" None "pending" 42 7 7])).
    do 6 right. reflexivity.
Defined.

Lemma list_tasks_never_422 (sf : option (list TaskStatus)) (q : option string)
  (task_id : option Z) (limit offset : Z) (sort order : string) (db : Db)
  (errs : list loc) :
  snd (list_tasks sf q task_id limit offset sort order db)
  <> ValidationError errs.
Proof.
  unfold list_tasks. destruct (getattr_TaskDB sort); [|discriminate].
  destruct (count_subquery _ _); [discriminate|].
  destruct (execute _ _); [discriminate|].
  destruct (model_validate_all _); discriminate.
Qed.

Lemma check_nil (l : loc) (ok : bool) : check l ok = [] <-> ok = true.
Proof. destruct ok; simpl; split; congruence. Qed.

Lemma In_check (l l' : loc) (ok : bool) :
  In l (check l' ok) <-> l = l' /\ ok = false.
Proof.
  destruct ok; simpl.
  - split; [tauto|intros [_ [=]]].
  - split; [intros [<-|[]]; auto|intros [-> _]; auto].
Qed.

Lemma parse_statuses_Some (l : list string) :
  (exists sts, parse_statuses l = Some sts) <->
  forallb (fun s => match TaskStatus_of_value s with
                    | Some _ => true
                    | None => false
                    end) l = true.
Proof.
  induction l as [|s l IH]; simpl.
  - split; [reflexivity|now exists []].
  - destruct (TaskStatus_of_value s) as [st|]; simpl.
    + rewrite <- IH. split.
      * intros [sts H]. destruct (parse_statuses l) as [sts'|]; [|discriminate].
        now exists sts'.
      * intros [sts ->]. now exists (st :: sts).
    + split; [intros [sts [=]]|discriminate].
Qed.

(** The parameters of a list request as [GET_tasks] checks them. *)
Lemma GET_tasks_cases (query : ListQuery.t) (db : Db) :
  let limit := default (ListQuery.limit query) 20 in
  let offset := default (ListQuery.offset query) 0 in
  let sort := default (ListQuery.sort query) "due_date"%string in
  let order := default (ListQuery.order query) "asc"%string in
  let statuses_ok :=
    forallb (fun s => match TaskStatus_of_value s with
                      | Some _ => true
                      | None => false
                      end) (ListQuery.status query) in
  let id_ok := match ListQuery.id query with
               | Some k => 1 <=? k
               | None => true
               end in
  let errs :=
    check loc_status statuses_ok ++ check loc_id id_ok
    ++ check loc_limit ((1 <=? limit) && (limit <=? 100))
    ++ check loc_offset (0 <=? offset)
    ++ check loc_sort (sort_pattern sort)
    ++ check loc_order (order_pattern order) in
  (valid_query query = true /\ errs = [] /\
   exists sf,
     GET_tasks query db
     = list_tasks sf (ListQuery.q query) (ListQuery.id query) limit offset
         sort order db)
  \/
  (valid_query query = false /\ errs <> [] /\
   GET_tasks query db = (db, ValidationError errs)).
Proof.
  intros limit offset sort order statuses_ok id_ok errs.
  destruct (valid_query query) eqn:Hv.
  - left. split; [reflexivity|].
    destruct (GET_tasks_valid query db Hv) as [sf [Hg _]].
    split; [|now exists sf].
    unfold valid_query in Hv. rewrite !andb_true_iff in Hv.
    destruct Hv as [[[[[[Hst Hid] Hl1] Hl2] Hoff] Hsort] Hord].
    subst errs statuses_ok id_ok limit offset sort order.
    now rewrite Hst, Hid, Hl1, Hl2, Hoff, Hsort, Hord.
  - right. split; [reflexivity|].
    assert (Hst : match ListQuery.status query with
                  | [] => Some None
                  | l => option_map Some (parse_statuses l)
                  end = None <-> statuses_ok = false).
    { subst statuses_ok. destruct (ListQuery.status query) as [|s l] eqn:Es.
      - simpl. split; discriminate.
      - cbv beta iota zeta. pose proof (parse_statuses_Some (s :: l)) as Hp.
        destruct (parse_statuses (s :: l)) as [sts|] eqn:Ep; cbn [option_map].
        + split; [intros Hx; discriminate Hx|]. intros Hf.
          rewrite (proj1 Hp (ex_intro _ sts eq_refl)) in Hf. discriminate.
        + split; [intros _|reflexivity].
          destruct (forallb _ (s :: l)); [|reflexivity].
          destruct (proj2 Hp eq_refl) as [sts Hs]. discriminate. }
    assert (Hne : errs <> []).
    { intros He. subst errs.
      repeat (apply app_eq_nil in He as [?%check_nil He]).
      apply check_nil in He.
      unfold valid_query in Hv. fold limit offset sort order in Hv.
      fold statuses_ok id_ok in Hv.
      match goal with H : _ && _ = true |- _ =>
        apply andb_true_iff in H as [? ?] end.
      assert (Hall : statuses_ok && id_ok && (1 <=? limit) && (limit <=? 100)
                     && (0 <=? offset) && sort_pattern sort
                     && order_pattern order = true)
        by (rewrite !andb_true_iff; auto 10).
      congruence. }
    split; [exact Hne|].
    unfold GET_tasks. fold limit offset sort order.
    set (sfo := match ListQuery.status query with
                | [] => Some None
                | l => option_map Some (parse_statuses l)
                end) in *.
    assert (Hck : check loc_status match sfo with
                                   | Some _ => true
                                   | None => false
                                   end = check loc_status statuses_ok).
    { destruct sfo as [x|].
      - destruct statuses_ok; [reflexivity|].
        destruct Hst as [_ Hst]. discriminate (Hst eq_refl).
      - now rewrite (proj1 Hst eq_refl). }
    rewrite Hck. fold id_ok. fold errs.
    destruct errs as [|e errs']; [congruence|]. reflexivity.
Qed.

(** X2. A list request is answered with a validation error exactly when one
    of its parameters is outside its limits, whatever the table, and the
    table is left as it was; the error names [limit] exactly when limit is
    not in 1..100, [offset] exactly when offset is negative, [sort] and
    [order] exactly when they are not one of the admitted words, and [id]
    exactly when the id is below 1. *)
Theorem list_validation_error_iff (query : ListQuery.t) (db : Db) :
  ((exists errs, GET_tasks query db = (db, ValidationError errs))
   <-> valid_query query = false)
  /\
  (forall errs db',
     GET_tasks query db = (db', ValidationError errs) ->
     db' = db /\
     (In loc_limit errs <-> ~ 1 <= default (ListQuery.limit query) 20 <= 100) /\
     (In loc_offset errs <-> default (ListQuery.offset query) 0 < 0) /\
     (In loc_sort errs <->
      sort_pattern (default (ListQuery.sort query) "due_date"%string) = false) /\
     (In loc_order errs <->
      order_pattern (default (ListQuery.order query) "asc"%string) = false) /\
     (In loc_id errs <-> exists k, ListQuery.id query = Some k /\ k < 1)).
Proof.
  pose proof (GET_tasks_cases query db) as Hc. cbv zeta in Hc. split.
  - destruct Hc as [[Hv [_ [sf Hg]]]|[Hv [_ Hg]]].
    + split; [|congruence]. intros [errs He]. exfalso.
      apply (list_tasks_never_422 sf (ListQuery.q query) (ListQuery.id query)
               (default (ListQuery.limit query) 20)
               (default (ListQuery.offset query) 0)
               (default (ListQuery.sort query) "due_date"%string)
               (default (ListQuery.order query) "asc"%string) db errs).
      now rewrite <- Hg, He.
    + split; [intros _; exact Hv|]. intros _. eexists. exact Hg.
  - intros errs db' He.
    destruct Hc as [[Hv [_ [sf Hg]]]|[Hv [_ Hg]]].
    + exfalso.
      apply (list_tasks_never_422 sf (ListQuery.q query) (ListQuery.id query)
               (default (ListQuery.limit query) 20)
               (default (ListQuery.offset query) 0)
               (default (ListQuery.sort query) "due_date"%string)
               (default (ListQuery.order query) "asc"%string) db errs).
      now rewrite <- Hg, He.
    + rewrite Hg in He. injection He as <- <-. split; [reflexivity|].
      rewrite !in_app_iff, !In_check.
      rewrite andb_false_iff, !Z.leb_gt.
      split; [|split; [|split; [|split]]].
      * split.
        -- intros [[[=] _]|[[[=] _]|[[_ H]|[[[=] _]|[[[=] _]|[[=] _]]]]]]. lia.
        -- intros H. do 2 right. left. split; [reflexivity|lia].
      * split.
        -- now intros [[[=] _]|[[[=] _]|[[[=] _]|[[_ H]|[[[=] _]|[[=] _]]]]]].
        -- intros H. do 3 right. left. now split.
      * split.
        -- now intros [[[=] _]|[[[=] _]|[[[=] _]|[[[=] _]|[[_ H]|[[=] _]]]]]].
        -- intros H. do 4 right. left. now split.
      * split.
        -- now intros [[[=] _]|[[[=] _]|[[[=] _]|[[[=] _]|[[[=] _]|[_ H]]]]]].
        -- intros H. do 5 right. now split.
      * split.
        -- intros [[[=] _]|[[_ H]|[[[=] _]|[[[=] _]|[[[=] _]|[[=] _]]]]]].
           destruct (ListQuery.id query) as [k|]; [|discriminate].
           exists k. split; [reflexivity|]. now apply Z.leb_gt.
        -- intros [k [Hk Hlt]]. right. left. split; [reflexivity|].
           rewrite Hk. now apply Z.leb_gt.
Qed.

Lemma list_validation_error_iff_witness :
  exists errs,
    GET_tasks (ListQuery.mk [] None None (Some 101) None None None) []
    = ([], ValidationError errs)
    /\ In loc_limit errs.
Proof.
  destruct (list_validation_error_iff
              (ListQuery.mk [] None None (Some 101) None None None) [])
    as [Hiff Hn].
  destruct (proj2 Hiff eq_refl) as [errs He]. exists errs.
  split; [exact He|]. apply (Hn errs [] He). simpl. lia.
Defined.

Lemma list_tasks_reply (sf : option (list TaskStatus)) (q : option string)
  (task_id : option Z) (limit offset : Z) (sort order : string) (db db' : Db)
  (code : Z) (res : TaskListOut.t) :
  list_tasks sf q task_id limit offset sort order db = (db', Reply code res) ->
  0 <= limit ->
  db' = db /\ code = HTTP_200_OK /\
  exists col,
    getattr_TaskDB sort = Some col /\
    TaskListOut.total res
    = Z.of_nat (length (filter (task_matches sf q task_id) db)) /\
    model_validate_all
      (window limit offset
         (sort_by (ordering_leb (direction order col))
            (filter (task_matches sf q task_id) db)))
    = Some (TaskListOut.items res).
Proof.
  unfold list_tasks. destruct (getattr_TaskDB sort) as [col|]; [|discriminate].
  rewrite execute_page. unfold count_subquery. rewrite execute_list_stmt.
  destruct (key_binds db task_id); [|discriminate]. cbn [andb].
  destruct (int64 limit && int64 offset); [|discriminate].
  intros H Hlim. rewrite selected_page in H by exact Hlim.
  destruct (model_validate_all _) as [items|] eqn:Ei; [|discriminate].
  injection H as <- <- <-. repeat split. exists col. simpl.
  rewrite (Permutation_length (sort_by_perm _ _)). auto.
Qed.

(** X3. Whatever the table, a list request that is answered with a body is
    answered 200, leaves the table as it was, and returns at most [limit]
    items, hence never more than 100, and never more items than the total it
    reports. *)
Theorem list_page_size_bounded
  (query : ListQuery.t) (db db' : Db) (code : Z) (res : TaskListOut.t) :
  GET_tasks query db = (db', Reply code res) ->
  code = HTTP_200_OK /\ db' = db /\
  Z.of_nat (length (TaskListOut.items res)) <= default (ListQuery.limit query) 20
  /\ default (ListQuery.limit query) 20 <= 100
  /\ Z.of_nat (length (TaskListOut.items res)) <= TaskListOut.total res.
Proof.
  intros Hg. pose proof (GET_tasks_cases query db) as Hc. cbv zeta in Hc.
  destruct Hc as [[Hv [_ [sf Hl]]]|[_ [_ He]]]; [|congruence].
  destruct (GET_tasks_valid query db Hv) as [_ [_ [_ [_ [Hlim Hoff]]]]].
  rewrite Hl in Hg. apply list_tasks_reply in Hg
    as [-> [-> [col [_ [Ht Hi]]]]]; [|lia].
  apply model_validate_all_Forall2, Forall2_length in Hi.
  rewrite length_window, (Permutation_length (sort_by_perm _ _)) in Hi.
  rewrite Ht. repeat split; lia.
Qed.

Lemma list_page_size_bounded_witness :
  let db := [TaskDB.mk 1 "Task 1" None "pending" 43 7 7;
             TaskDB.mk 2 "Task 2" None "pending" 42 8 8] in
  let res := TaskListOut.mk 2 [TaskOut.mk 2 "Task 2" None pending (naive 42) (naive 8) (naive 8)] in
  GET_tasks (ListQuery.mk [] None None (Some 1) None None None) db
  = (db, Reply HTTP_200_OK res) /\
  Z.of_nat (length (TaskListOut.items res)) <= 1.
Proof.
  intros db res. split; [reflexivity|].
  exact (proj1 (proj2 (proj2
           (list_page_size_bounded
              (ListQuery.mk [] None None (Some 1) None None None)
              db db HTTP_200_OK res eq_refl)))).
Defined.

(** ** Pages of a listing *)









(** ** Filters of a listing *)

Lemma list_tasks_ext (sf sf' : option (list TaskStatus)) (q q' : option string)
  (task_id : option Z) (limit offset : Z) (sort order : string)
  (db : Db) :
  (forall r, task_matches sf q task_id r = task_matches sf' q' task_id r) ->
  list_tasks sf q task_id limit offset sort order db
  = list_tasks sf' q' task_id limit offset sort order db.
Proof.
  intros Hext. unfold list_tasks.
  destruct (getattr_TaskDB sort) as [col|]; [|reflexivity].
  unfold count_subquery. rewrite !execute_page, !execute_list_stmt.
  rewrite (filter_ext _ _ Hext).
  assert (Hsel :
    selected (offset_ (limit_ (list_stmt sf q task_id (direction order col))
                         limit) offset) db
    = selected (offset_ (limit_ (list_stmt sf' q' task_id
                                   (direction order col)) limit) offset) db).
  { destruct (list_stmt_shape sf q task_id (direction order col))
      as [Ho [_ [_ [_ Hw]]]].
    destruct (list_stmt_shape sf' q' task_id (direction order col))
      as [Ho' [_ [_ [_ Hw']]]].
    unfold selected.
    cbn [offset_ limit_ whereclause order_by_clause limit_clause
           offset_clause].
    rewrite Ho, Ho', (filter_ext _ _ Hw), (filter_ext _ _ Hw'),
      (filter_ext _ _ Hext).
    reflexivity. }
  now rewrite Hsel.
Qed.

Lemma in_status_values (sf : list TaskStatus) (r : TaskDB.t) :
  in_ (map TaskStatus_value sf) r = true <->
  exists st, In st sf /\ TaskDB.status r = TaskStatus_value st.
Proof.
  unfold in_. rewrite existsb_exists. split.
  - intros [s [Hin He]]. apply in_map_iff in Hin as [st [<- Hst]].
    apply String.eqb_eq in He. now exists st.
  - intros [st [Hin He]]. exists (TaskStatus_value st). split.
    + now apply in_map.
    + rewrite He. apply String.eqb_refl.
Qed.

(** X6. On a well-formed table, a list request with a non-empty status
    filter and no other filter, with a limit that is not negative and a
    limit and an offset in the signed 64-bit range, is answered 200; its
    total is the number of stored tasks whose status is one of the requested
    ones, and every returned item has one of the requested statuses. A
    status filter that is present but empty filters nothing: the answer is
    the one given without it. *)
Theorem list_status_filter
  (sf : list TaskStatus) (limit offset : Z) (sort order : string) (db : Db) :
  db_ok db = true ->
  sort_pattern sort = true ->
  (sf <> [] ->
   0 <= limit ->
   int64 limit = true ->
   int64 offset = true ->
   exists items,
     list_tasks (Some sf) None None limit offset sort order db
     = (db, Reply HTTP_200_OK
              (TaskListOut.mk
                 (Z.of_nat (length (filter (in_ (map TaskStatus_value sf)) db)))
                 items)) /\
     forall o, In o items -> In (TaskOut.status o) sf) /\
  list_tasks (Some []) None None limit offset sort order db
  = list_tasks None None None limit offset sort order db.
Proof.
  intros Hok Hsort. split; [|reflexivity].
  intros Hne Hlim Hl64 Ho64.
  destruct (list_tasks_page (Some sf) None None sort order db
              Hok Hsort eq_refl) as [sorted [Hperm Hpage]].
  destruct (Hpage limit offset Hlim Hl64 Ho64) as [items [Hl [Hitems _]]].
  assert (Hf : filter (task_matches (Some sf) None None) db
               = filter (in_ (map TaskStatus_value sf)) db).
  { apply filter_ext. intros r. unfold task_matches.
    destruct sf; [congruence|]. cbv beta iota zeta.
    now rewrite !andb_true_r. }
  rewrite Hf in Hl, Hperm. exists items. split; [exact Hl|].
  intros o Ho. apply model_validate_all_Forall2 in Hitems.
  destruct (Forall2_In_right _ _ _ _ Hitems Ho) as [r [Hr Hv]].
  apply In_window in Hr. apply (Permutation_in _ Hperm) in Hr.
  apply filter_In in Hr as [_ Hin].
  apply in_status_values in Hin as [st [Hst Hs]].
  unfold TaskOut_model_validate in Hv.
  rewrite Hs, TaskStatus_of_value_value in Hv. injection Hv as <-. exact Hst.
Qed.

Lemma list_status_filter_witness :
  let db := [TaskDB.mk 1 "Task 1" None "pending" 43 7 7;
             TaskDB.mk 2 "Task 2" None "in_progress" 42 8 8;
             TaskDB.mk 3 "Task 3" None "completed" 41 9 9] in
  exists items,
    list_tasks (Some [pending; completed]) None None 20 0 "id" "asc" db
    = (db, Reply HTTP_200_OK (TaskListOut.mk 2 items)) /\
    forall o, In o items -> In (TaskOut.status o) [pending; completed].
Proof.
  intros db.
  apply (proj1 (list_status_filter [pending; completed] 20 0
                  "id"%string "asc"%string db eq_refl eq_refl));
    try reflexivity; discriminate.
Defined.


Lemma truthy_chars (s : string) : truthy s = true <-> chars s <> [].
Proof.
  unfold truthy. destruct s; simpl; split; try congruence; discriminate.
Qed.



(** X8. On any table, the answer to a search depends on the search text only
    through its stripped form with letters A-Z folded to lower case: two
    search texts that agree after stripping and folding get the same
    answer. *)
Theorem q_search_ignores_case_and_padding
  (q1 q2 : string) (limit offset : Z) (sort order : string) (db : Db) :
  lower (chars (strip q1)) = lower (chars (strip q2)) ->
  list_tasks None (Some q1) None limit offset sort order db
  = list_tasks None (Some q2) None limit offset sort order db.
Proof.
  intros Hq. apply list_tasks_ext. intros r. unfold task_matches. simpl.
  assert (Ht : truthy (strip q1) = truthy (strip q2)).
  { apply eq_true_iff_eq. rewrite !truthy_chars.
    unfold lower in Hq. apply (f_equal (@length ascii)) in Hq.
    rewrite !length_map in Hq.
    destruct (chars (strip q1)), (chars (strip q2)); simpl in Hq;
      split; congruence. }
  rewrite Ht. destruct (truthy (strip q2)); [|reflexivity].
  unfold title_match, ilike. now rewrite !lower_pattern_of, Hq.
Qed.

Lemma q_search_ignores_case_and_padding_witness :
  let db := [TaskDB.mk 1 "Task 1" None "pending" 43 7 7;
             TaskDB.mk 2 "other" None "pending" 42 8 8] in
  list_tasks None (Some "  tASK "%string) None 20 0 "id" "asc" db
  = list_tasks None (Some "Task"%string) None 20 0 "id" "asc" db.
Proof.
  intros db.
  apply (q_search_ignores_case_and_padding "  tASK "%string "Task"%string
           20 0 "id"%string "asc"%string db).
  reflexivity.
Defined.

(** ** Create and delete *)

Lemma filter_other_ids (k : Z) (db : Db) :
  ~ In k (ids db) -> filter (fun r => negb (has_id k r)) db = db.
Proof.
  intros Hk. apply forallb_filter_id, forallb_forall. intros r Hin.
  apply negb_true_iff, has_id_false. intros <-. apply Hk. now apply in_map.
Qed.

(** X9. On any table, deleting the task that a create has just added is
    answered 204 and gives back the table exactly as it was before the
    create; the id is then free again, and the next create is given the same
    id. *)
Theorem create_then_delete_restores_table
  (now now' : naive_datetime) (payload payload' : TaskCreate.t) (db : Db) :
  exists out db1,
    create_task now payload db = (db1, Reply HTTP_201_CREATED out) /\
    delete_task (TaskOut.id out) db1 = (db, Reply HTTP_204_NO_CONTENT tt) /\
    exists out',
      snd (create_task now' payload' db) = Reply HTTP_201_CREATED out' /\
      TaskOut.id out' = TaskOut.id out.
Proof.
  destruct (create_task_spec now payload db)
    as [row [Hc [Hid [_ [_ [_ Hv]]]]]].
  destruct (create_task_spec now' payload' db) as [row' [Hc' _]].
  cbv zeta in Hc, Hc'. do 2 eexists. split; [exact Hc|]. cbn [TaskOut.id].
  split.
  - rewrite (delete_task_found _ _ row)
      by apply (db_get_app_fresh (next_rowid db) db row (next_rowid_fresh db)
                  Hid).
    unfold db_delete. rewrite Hid, filter_app, filter_other_ids
      by apply next_rowid_fresh.
    simpl. assert (H : has_id (next_rowid db) row = true)
      by now apply has_id_true.
    rewrite H. simpl. now rewrite app_nil_r.
  - eexists. rewrite Hc'. split; reflexivity.
Qed.

Lemma length_filter_unique (k : Z) (db : Db) :
  NoDup (ids db) -> In k (ids db) ->
  S (length (filter (fun r => negb (has_id k r)) db)) = length db.
Proof.
  unfold ids. induction db as [|x db IH]; simpl; [tauto|].
  intros Hnd Hin. inversion Hnd as [|? ? Hx Hdb]; subst.
  destruct (has_id k x) eqn:E; simpl.
  - apply has_id_true in E. rewrite filter_other_ids; [reflexivity|].
    unfold ids. now rewrite <- E.
  - apply has_id_false in E. destruct Hin as [Hin|Hin]; [contradiction|].
    now rewrite IH.
Qed.

(** X10. On a well-formed table, deleting an id that is in it is answered
    204; afterwards that id is gone, every other id fetches exactly what it
    fetched before, and the table holds one task fewer. *)
Theorem delete_removes_exactly_that_task (k : Z) (db : Db) :
  db_ok db = true ->
  In k (ids db) ->
  exists db',
    delete_task k db = (db', Reply HTTP_204_NO_CONTENT tt) /\
    ~ In k (ids db') /\
    (forall j, j <> k -> get_task j db' = (db', snd (get_task j db))) /\
    S (length db') = length db.
Proof.
  intros Hok Hin.
  destruct (db_get k db) as [task|] eqn:Hg;
    [|apply db_get_None in Hg; contradiction].
  assert (Hdb : fst (delete_task k db)
                = filter (fun r => negb (has_id k r)) db)
    by apply delete_task_db.
  rewrite (delete_task_found k db task Hg) in *. simpl in Hdb.
  eexists. split; [reflexivity|]. rewrite Hdb. split; [|split].
  - apply db_get_None. apply db_get_In in Hg as [_ <-].
    rewrite <- Hdb. apply db_get_delete.
  - intros j Hj.
    assert (Hj' : db_get j (filter (fun r => negb (has_id k r)) db)
                  = db_get j db)
      by (apply db_get_filter_other; congruence).
    destruct (db_get j db) as [t|] eqn:Ej.
    + now rewrite (get_task_found j _ t Hj'), (get_task_found j db t Ej).
    + now rewrite (get_task_absent j _ Hj'), (get_task_absent j db Ej).
  - apply length_filter_unique; [|assumption]. now apply db_ok_iff.
Qed.

Lemma delete_removes_exactly_that_task_witness :
  let db := [TaskDB.mk 1 "Task 1" None "pending" 43 7 7;
             TaskDB.mk 2 "Task 2" None "pending" 42 8 8] in
  exists db',
    delete_task 1 db = (db', Reply HTTP_204_NO_CONTENT tt) /\
    S (length db') = 2%nat.
Proof.
  intros db.
  destruct (delete_removes_exactly_that_task 1 db eq_refl)
    as [db' [H1 [_ [_ H4]]]].
  - simpl. auto.
  - exists db'. auto.
Defined.

(** ** Tables the service can reach: keys and lookups *)

Lemma increasing_app (l : list Z) (x : Z) :
  increasing l = true -> (forall y, In y l -> y < x) ->
  increasing (l ++ [x]) = true.
Proof.
  induction l as [|a l IH]; simpl; [reflexivity|].
  rewrite !andb_true_iff, forallb_app. intros [Ha Hl] Hx. split.
  - rewrite Ha. simpl. rewrite andb_true_r. apply Z.ltb_lt. apply Hx. now left.
  - apply IH; [assumption|]. intros y Hy. apply Hx. now right.
Qed.

Lemma increasing_ids_filter (f : TaskDB.t -> bool) (db : Db) :
  increasing (ids db) = true -> increasing (ids (filter f db)) = true.
Proof.
  unfold ids. induction db as [|x db IH]; simpl; [reflexivity|].
  rewrite andb_true_iff. intros [Hx Hdb]. destruct (f x); simpl; [|auto].
  rewrite andb_true_iff. split; [|auto].
  rewrite forallb_forall in *. intros k Hk. apply Hx.
  apply in_map_iff in Hk as [r [<- Hr]]. apply filter_In in Hr as [Hr _].
  now apply in_map.
Qed.

Lemma handle_increasing (now : naive_datetime) (req : request) (db : Db) :
  increasing (ids db) = true -> increasing (ids (handle now req db)) = true.
Proof.
  intros Hinc. destruct req as [p|k p|k]; unfold handle.
  - destruct (create_task_db now p db) as [row [-> [Hid _]]].
    unfold ids. rewrite map_app. simpl. apply increasing_app; [exact Hinc|].
    intros y Hy. apply in_map_iff in Hy as [r [<- Hr]]. rewrite Hid.
    now apply ids_below_next_rowid.
  - destruct (update_task_db now k p db)
      as [->|[old [new [_ [-> _]]]]]; [assumption|].
    now rewrite ids_db_update.
  - rewrite delete_task_db. now apply increasing_ids_filter.
Qed.

Lemma run_increasing (events : list (naive_datetime * request)) (db : Db) :
  increasing (ids db) = true -> increasing (ids (run events db)) = true.
Proof.
  revert db. induction events as [|[now req] events IH]; intros db H;
    [assumption|].
  simpl. apply IH. now apply handle_increasing.
Qed.

Lemma db_get_In_unique (db : Db) (r : TaskDB.t) :
  NoDup (ids db) -> In r db -> db_get (TaskDB.id r) db = Some r.
Proof.
  unfold db_get, ids. induction db as [|x db IH]; simpl; [tauto|].
  intros Hnd Hin. inversion Hnd as [|? ? Hx Hdb]; subst.
  destruct Hin as [->|Hin].
  - unfold has_id. now rewrite Z.eqb_refl.
  - destruct (has_id (TaskDB.id r) x) eqn:E; [|auto].
    apply has_id_true in E. exfalso. apply Hx. rewrite E. now apply in_map.
Qed.

(** X11. In every table reached from the empty one by create, update and
    delete requests, the ids of the stored tasks are positive and strictly
    increasing in the order the tasks were created, so no two tasks share an
    id; and every stored task is the one fetched under its id, with answer
    200. *)
Theorem reachable_ids_increasing_and_fetchable (db : Db) :
  reachable db ->
  increasing (ids db) = true /\
  forall r, In r db ->
    1 <= TaskDB.id r /\
    exists out,
      TaskOut_model_validate r = Some out /\
      get_task (TaskDB.id r) db = (db, Reply HTTP_200_OK out).
Proof.
  intros Hr. pose proof (reachable_db_ok db Hr) as Hok.
  split.
  - destruct Hr as [events <-]. now apply run_increasing.
  - intros r Hin. destruct (proj1 (db_ok_iff db) Hok) as [Hrows Hnd].
    split; [now apply Hrows|].
    destruct (model_validate_total db r Hok Hin) as [out Hv].
    exists out. split; [exact Hv|].
    rewrite (get_task_found _ _ r (db_get_In_unique db r Hnd Hin)).
    unfold reply_task. now rewrite Hv.
Qed.

Lemma reachable_ids_increasing_and_fetchable_witness :
  let db := run [(7, Create (TaskCreate.mk "a" None (naive 1) pending));
                 (8, Create (TaskCreate.mk "b" None (naive 2) pending));
                 (9, Delete 1);
                 (10, Create (TaskCreate.mk "c" None (naive 3) completed))] [] in
  ids db = [2; 3] /\ increasing (ids db) = true.
Proof.
  intros db. split; [reflexivity|].
  apply (reachable_ids_increasing_and_fetchable db).
  eexists. reflexivity.
Defined.

(** ** Tables reached through the endpoints *)

Lemma TaskCreate_validate_limits (body : CreateBody.t) (p : TaskCreate.t) :
  TaskCreate_validate body = inr p ->
  1 <= str_len (TaskCreate.title p) <= 200 /\
  forall d, TaskCreate.description p = Some d -> str_len d <= 10000.
Proof.
  unfold TaskCreate_validate.
  destruct (required_str loc_title 1 200 _) as [e1 ti] eqn:E1.
  destruct (optional_str loc_description 0 10000 _) as [e2 de] eqn:E2.
  destruct (required loc_due_date _ _) as [e3 du].
  destruct (status_with_default _) as [e4 st].
  destruct (e1 ++ e2 ++ e3 ++ e4) eqn:Ee; [|discriminate].
  intros [= <-]. simpl.
  apply app_eq_nil in Ee as [-> Ee]. apply app_eq_nil in Ee as [-> _].
  split.
  - destruct (CreateBody.title body); simpl in E1; try discriminate.
    injection E1 as E1 <-. now apply check_length_nil in E1.
  - intros d ->.
    destruct (CreateBody.description body); simpl in E2; try discriminate.
    injection E2 as E2 <-. apply check_length_nil in E2. lia.
Qed.

Lemma TaskUpdate_validate_limits (body : UpdateBody.t) (p : TaskUpdate.t) :
  TaskUpdate_validate body = inr p ->
  (forall s, TaskUpdate.title p = Some s -> 1 <= str_len s <= 200) /\
  (forall d, TaskUpdate.description p = Some d -> str_len d <= 10000).
Proof.
  intros Hv. pose proof (TaskUpdate_validate_errors body) as He.
  destruct (TaskUpdate_validate_fields body p Hv) as [Ht [Hd _]].
  rewrite Hv in He. destruct He as [H1 [H2 _]].
  rewrite Ht, Hd. split.
  - intros s Hs. apply (proj2 (proj1 (optional_str_nil _ _ _ _) H1)).
    destruct (UpdateBody.title body); simpl in Hs; congruence.
  - intros d Hs.
    apply (proj2 (proj1 (optional_str_nil _ _ _ _) H2)).
    destruct (UpdateBody.description body); simpl in Hs; congruence.
Qed.

Lemma within_limits_iff (r : TaskDB.t) :
  within_limits r = true <->
  1 <= str_len (TaskDB.title r) <= 200 /\
  forall d, TaskDB.description r = Some d -> str_len d <= 10000.
Proof.
  unfold within_limits. rewrite !andb_true_iff, !Z.leb_le.
  destruct (TaskDB.description r) as [d|].
  - rewrite Z.leb_le. split.
    + intros [H Hd]. split; [lia|]. now intros d' [= <-].
    + intros [H Hd]. split; [lia|]. now apply Hd.
  - split; [intros [H _]; split; [lia|discriminate]|intros [H _]; split; [lia|reflexivity]].
Qed.

Lemma serve_within_limits (now : naive_datetime) (r : api_request) (db : Db) :
  forallb within_limits db = true ->
  forallb within_limits (serve now r db) = true.
Proof.
  intros Hdb. destruct r as [body|k body|k]; unfold serve.
  - unfold POST_tasks.
    destruct (TaskCreate_validate body) as [errs|p] eqn:Ev; [exact Hdb|].
    apply TaskCreate_validate_limits in Ev as [Ht Hd].
    unfold create_task, db_add. simpl. rewrite forallb_app, Hdb. simpl.
    rewrite andb_true_r. apply within_limits_iff. simpl. auto.
  - unfold PATCH_task.
    destruct (TaskUpdate_validate body) as [errs|p] eqn:Ev; [exact Hdb|].
    apply TaskUpdate_validate_limits in Ev as [Ht Hd].
    unfold update_task.
    destruct (Session_get_cases k db)
      as [[task [Hg ->]]|[[_ [_ ->]]|[_ [_ ->]]]]; [|exact Hdb|exact Hdb].
    simpl. apply db_get_In in Hg as [Hin _].
    rewrite forallb_forall in *. intros r Hr.
    apply In_db_update in Hr as [->|Hr]; [|auto].
    specialize (Hdb task Hin). apply within_limits_iff in Hdb as [Ht0 Hd0].
    apply within_limits_iff. simpl. split.
    + destruct (TaskUpdate.title p) as [s|]; simpl; auto.
    + destruct (TaskUpdate.description p) as [d|]; [|exact Hd0].
      intros d' [= <-]. now apply Hd.
  - rewrite delete_task_db. rewrite forallb_forall in *.
    intros r Hr. apply filter_In in Hr as [Hr _]. auto.
Qed.

(** X12. Through the endpoints, whatever bodies are sent and in whatever
    order, every task in the table has a title of 1 to 200 characters and a
    description that is null or at most 10,000 characters long: validation
    keeps out-of-limit text out of the table on create and on update
    alike. *)
Theorem served_tables_within_limits (events : list (naive_datetime * api_request)) :
  forall r, In r (serve_all events []) ->
    1 <= str_len (TaskDB.title r) <= 200 /\
    forall d, TaskDB.description r = Some d -> str_len d <= 10000.
Proof.
  assert (H : forall db, forallb within_limits db = true ->
                         forallb within_limits (serve_all events db) = true).
  { induction events as [|[now req] events IH]; intros db Hdb; [exact Hdb|].
    simpl. apply IH. now apply serve_within_limits. }
  intros r Hr. apply within_limits_iff.
  specialize (H [] eq_refl). rewrite forallb_forall in H. now apply H.
Qed.

Lemma served_tables_within_limits_witness :
  let events :=
    [(7, POST (CreateBody.mk (Value EmptyString) Missing (Value (naive 1)) Missing));
     (8, POST (CreateBody.mk (Value "Task 1"%string) Null (Value (naive 1)) Missing));
     (9, PATCH 1 (UpdateBody.mk (Value EmptyString) Missing Missing Missing))] in
  serve_all events [] = [TaskDB.mk 1 "Task 1" None "pending" 1 8 8] /\
  1 <= str_len "Task 1" <= 200.
Proof.
  intros events. split; [reflexivity|].
  apply (served_tables_within_limits events
           (TaskDB.mk 1 "Task 1" None "pending" 1 8 8)).
  left. reflexivity.
Defined.

(** ** Answers on well-formed tables *)

Lemma db_ok_update_reply (now : naive_datetime) (k : Z) (payload : TaskUpdate.t)
  (db : Db) (task : TaskDB.t) :
  db_ok db = true ->
  db_get k db = Some task ->
  exists out db',
    update_task now k payload db = (db', Reply HTTP_200_OK out).
Proof.
  intros Hok Hg. apply db_get_In in Hg as Hin. destruct Hin as [Hin _].
  destruct (model_validate_total db task Hok Hin) as [old Hv].
  destruct (update_task_spec now k payload db old) as [out [db' [H _]]].
  - rewrite (get_task_found k db task Hg). unfold reply_task. now rewrite Hv.
  - now exists out, db'.
Qed.



(** X14. On a well-formed table, a create, update or delete request that is
    answered with an error (a validation error or a 404) leaves the table
    exactly as it was. *)
Theorem error_answers_leave_table_unchanged (db : Db) :
  db_ok db = true ->
  (forall now body,
     is_error (snd (POST_tasks now body db)) = true ->
     fst (POST_tasks now body db) = db) /\
  (forall now k body,
     is_error (snd (PATCH_task now k body db)) = true ->
     fst (PATCH_task now k body db) = db) /\
  (forall k,
     is_error (snd (delete_task k db)) = true ->
     fst (delete_task k db) = db).
Proof.
  intros Hok. repeat split.
  - intros now body. unfold POST_tasks.
    destruct (TaskCreate_validate body) as [errs|p]; [reflexivity|].
    destruct (create_task_spec now p db) as [row [-> _]]. discriminate.
  - intros now k body. unfold PATCH_task.
    destruct (TaskUpdate_validate body) as [errs|p]; [reflexivity|].
    destruct (db_get k db) as [task|] eqn:Hg.
    + destruct (db_ok_update_reply now k p db task Hok Hg) as [out [db' ->]].
      discriminate.
    + unfold update_task. rewrite (Session_get_absent k db Hg).
      now destruct (int64 k).
  - intros k. unfold delete_task.
    destruct (Session_get k db) as [|[t|]]; [reflexivity|discriminate|].
    reflexivity.
Qed.

Lemma error_answers_leave_table_unchanged_witness :
  let db := [TaskDB.mk 1 "Task 1" None "pending" 1 8 8] in
  fst (PATCH_task 9 5 (UpdateBody.mk (Value "x"%string) Missing Missing Missing)
         db) = db.
Proof.
  intros db.
  apply (proj1 (proj2 (error_answers_leave_table_unchanged db eq_refl))).
  reflexivity.
Defined.

(** ** Listing by id *)











(** ** Create: required fields and what it leaves alone *)

Lemma TaskCreate_validate_inr (body : CreateBody.t) (p : TaskCreate.t) :
  TaskCreate_validate body = inr p -> create_body_valid body.
Proof.
  unfold TaskCreate_validate, create_body_valid, title_within_limits,
    description_within_limits, status_field_ok.
  destruct (required_str loc_title 1 200 _) as [e1 ti] eqn:E1.
  destruct (optional_str loc_description 0 10000 _) as [e2 de] eqn:E2.
  destruct (required loc_due_date _ _) as [e3 du] eqn:E3.
  destruct (status_with_default _) as [e4 st] eqn:E4.
  destruct (e1 ++ e2 ++ e3 ++ e4) eqn:Ee; [|discriminate]. intros _.
  apply app_eq_nil in Ee as [-> Ee]. apply app_eq_nil in Ee as [-> Ee].
  apply app_eq_nil in Ee as [-> ->].
  split; [|split; [|split]].
  - destruct (CreateBody.title body) as [| |t|]; simpl in E1;
      try discriminate.
    injection E1 as E1 _. apply check_length_nil in E1. now exists t.
  - split.
    + intros Hd. rewrite Hd in E2. discriminate.
    + intros d Hd. rewrite Hd in E2. simpl in E2.
      injection E2 as E2 _. apply check_length_nil in E2. lia.
  - destruct (CreateBody.due_date body) as [| |d|]; simpl in E3;
      try discriminate.
    now exists d.
  - exists st. destruct (CreateBody.status body) as [| |s|]; simpl in E4.
    + left. split; congruence.
    + discriminate.
    + right. destruct (TaskStatus_of_value s) as [st'|] eqn:Es;
        [|discriminate].
      injection E4 as <-. f_equal. now apply TaskStatus_of_value_inv.
    + discriminate.
Qed.

(** X16. A create request is answered 201 exactly when its body meets every
    constraint of the schema: a title of 1 to 200 characters, a description
    left out, null or at most 10,000 characters long, a due date, and a
    status left out or a value of the enum. Any other body (a missing or
    null title or due date, a null or unknown status among them) is
    answered with a validation error, and the table is left as it was. *)
Theorem create_answers_201_iff_body_valid
  (now : naive_datetime) (body : CreateBody.t) (db : Db) :
  ((exists out db', POST_tasks now body db = (db', Reply HTTP_201_CREATED out))
   <-> create_body_valid body)
  /\
  ((exists errs, POST_tasks now body db = (db, ValidationError errs))
   <-> ~ create_body_valid body).
Proof.
  unfold POST_tasks.
  destruct (TaskCreate_validate body) as [errs|p] eqn:Ev.
  - assert (Hn : ~ create_body_valid body).
    { intros [[ti [Hti Hlen]] [Hde [[du Hdu] [st Hst]]]].
      rewrite (TaskCreate_validate_ok body ti du st) in Ev by assumption.
      discriminate. }
    split; split.
    + intros [out [db' H]]. discriminate.
    + intros Hv. contradiction.
    + intros _. exact Hn.
    + intros _. now exists errs.
  - pose proof (TaskCreate_validate_inr body p Ev) as Hv.
    destruct (create_task_spec now p db) as [row [Hc _]]. cbv zeta in Hc.
    split; split.
    + intros _. exact Hv.
    + intros _. do 2 eexists. exact Hc.
    + intros [errs H]. rewrite Hc in H. discriminate.
    + intros Hn. contradiction.
Qed.

Lemma create_answers_201_iff_body_valid_witness :
  exists errs,
    POST_tasks 7 (CreateBody.mk (Value "Task 1"%string) Missing Missing Missing)
      []
    = ([], ValidationError errs).
Proof.
  apply (proj2 (create_answers_201_iff_body_valid 7
                  (CreateBody.mk (Value "Task 1"%string) Missing Missing Missing)
                  [])).
  intros [_ [_ [[du Hdu] _]]]. discriminate.
Defined.

(** X17. On any table, a create adds exactly one task and touches no other:
    the table grows by one, and every id that was in it fetches exactly what
    it fetched before. *)
Theorem create_leaves_other_tasks_alone
  (now : naive_datetime) (payload : TaskCreate.t) (db : Db) :
  let db' := fst (create_task now payload db) in
  length db' = S (length db) /\
  forall k, In k (ids db) -> get_task k db' = (db', snd (get_task k db)).
Proof.
  intros db'. subst db'.
  destruct (create_task_db now payload db) as [row [-> [Hid _]]]. split.
  - rewrite length_app. simpl. lia.
  - intros k Hk.
    assert (Hg : db_get k (db ++ [row]) = db_get k db).
    { apply db_get_app_old. rewrite Hid. intros <-.
      now apply (next_rowid_fresh db). }
    destruct (db_get k db) as [t|] eqn:Ek;
      [|apply db_get_None in Ek; contradiction].
    now rewrite (get_task_found k _ t Hg), (get_task_found k db t Ek).
Qed.

Lemma create_leaves_other_tasks_alone_witness :
  let db := [TaskDB.mk 1 "Task 1" None "pending" 1 8 8] in
  let db' := fst (create_task 9 (TaskCreate.mk "Task 2" None (naive 2) pending) db) in
  get_task 1 db' = (db', snd (get_task 1 db)).
Proof.
  intros db db'.
  apply (proj2 (create_leaves_other_tasks_alone 9
                  (TaskCreate.mk "Task 2" None (naive 2) pending) db)).
  simpl. auto.
Defined.

(** X18. On a well-formed table, a list request with no parameters at all is
    answered 200 with the number of stored tasks as total and with
    min(20, total) items: the default page is the first 20. *)
Theorem list_default_page (db : Db) :
  db_ok db = true ->
  exists items,
    GET_tasks (ListQuery.mk [] None None None None None None) db
    = (db, Reply HTTP_200_OK (TaskListOut.mk (Z.of_nat (length db)) items)) /\
    length items = Nat.min 20 (length db).
Proof.
  intros Hok.
  destruct (list_tasks_page None None None "due_date"%string "asc"%string
              db Hok eq_refl eq_refl) as [sorted [_ Hpage]].
  destruct (Hpage 20 0) as [items [Hl [_ Hlen]]];
    [discriminate|reflexivity|reflexivity|].
  rewrite (filter_all _ db task_matches_none) in Hl, Hlen.
  exists items. split; [exact Hl|].
  rewrite Hlen. change (Z.to_nat 20) with 20%nat. change (Z.to_nat 0) with 0%nat.
  now rewrite Nat.sub_0_r.
Qed.

Lemma list_default_page_witness :
  let db := [TaskDB.mk 1 "Task 1" None "pending" 1 8 8] in
  exists items,
    GET_tasks (ListQuery.mk [] None None None None None None) db
    = (db, Reply HTTP_200_OK (TaskListOut.mk 1 items)) /\
    length items = 1%nat.
Proof.
  intros db. apply (list_default_page db eq_refl).
Defined.

(** ** Updates in sequence *)

Lemma db_update_twice (t1 t2 : TaskDB.t) (db : Db) :
  TaskDB.id t1 = TaskDB.id t2 ->
  db_update t2 (db_update t1 db) = db_update t2 db.
Proof.
  intros Hid. unfold db_update. rewrite map_map. apply map_ext. intros r.
  rewrite Hid. destruct (has_id (TaskDB.id t2) r) eqn:E; [|now rewrite E].
  unfold has_id. now rewrite Hid, Z.eqb_refl.
Qed.

(** X19. On any table, two partial updates of the same id served one after
    the other leave the same table and give the same answer as the single
    update, served at the later clock reading, in which each field comes
    from the later update if it supplies it and from the earlier one
    otherwise. *)
Theorem updates_compose
  (now1 now2 : naive_datetime) (k : Z) (p1 p2 : TaskUpdate.t) (db : Db) :
  update_task now2 k p2 (fst (update_task now1 k p1 db))
  = update_task now2 k (merge_update p2 p1) db.
Proof.
  unfold update_task at 2 3.
  destruct (Session_get_cases k db)
    as [[task [Hg ->]]|[[Hg [Hk ->]]|[Hg [Hk ->]]]].
  - cbn [fst]. set (t1 := TaskDB.mk _ _ _ _ _ _ now1).
    assert (Hk : TaskDB.id t1 = k) by (apply db_get_In in Hg; tauto).
    assert (Hg1 : db_get k (db_update t1 db) = Some t1).
    { rewrite <- Hk at 1. apply (db_get_update_same t1 task). now rewrite Hk. }
    unfold update_task. rewrite (Session_get_found _ _ _ Hg1).
    set (t2 := TaskDB.mk _ _ _ _ _ _ now2).
    set (t := TaskDB.mk _ _ _ _ _ _ now2).
    assert (Ht : t2 = t).
    { subst t2 t t1. unfold merge_update, set_opt, or_else. simpl.
      destruct (TaskUpdate.title p2), (TaskUpdate.title p1),
        (TaskUpdate.description p2), (TaskUpdate.description p1),
        (TaskUpdate.status p2), (TaskUpdate.status p1),
        (TaskUpdate.due_date p2), (TaskUpdate.due_date p1); reflexivity. }
    rewrite <- Ht. now rewrite db_update_twice.
  - cbn [fst]. unfold update_task.
    now rewrite (Session_get_absent k db Hg), Hk.
  - cbn [fst]. unfold update_task.
    now rewrite (Session_get_absent k db Hg), Hk.
Qed.
